(** * Speaker classification worker of the Montreal Forced Aligner

    Shallow embedding of [montreal_forced_aligner/speaker_classifier.py]
    (class [SpeakerClassifier]) and the properties of its operations:
    construction, [setup], [load_ivectors], [cluster_utterances] and
    [export_files].

    Conventions of the embedding.
    - A method of the class is a computation in the monad [M]: it takes the
      world (the object [self], the corpus database, the disk and the log)
      and yields the world it leaves behind together with either a returned
      value or the Python exception it raised.  Effects performed before an
      exception is raised stay visible in the world.
    - Python dictionaries that are only looked up and updated are [gmap]s;
      dictionaries that are iterated ([dict.items()], [dict.values()]) are
      association lists in iteration order.
    - Collaborators that live in other modules ([load_scp],
      [construct_output_path], [check_previous_run], ...) are variables of
      the section: every theorem holds for each of their implementations. *)

From stdpp Require Import gmap strings list fin_maps.
From Stdlib Require Import ZArith Lia Ascii.

Local Open Scope string_scope.
Local Open Scope Z_scope.

(** ** Python values and exceptions *)

(** The exceptions that the methods of the class can let escape. *)
Inductive exn : Type :=
| NotImplementedError (msg : string)
| ValueError (msg : string)
| IndexError (msg : string)
| KeyError (key : string)
| KaldiProcessingError (error_logs : list string)
| OtherError (kind msg : string).

Inductive outcome (A : Type) : Type :=
| Returned (a : A)
| Raised (e : exn).
Arguments Returned {A} a.
Arguments Raised {A} e.

Definition is_raised {A} (r : outcome A) : bool :=
  match r with Raised _ => true | Returned _ => false end.

(** [TextFileType] is declared in [montreal_forced_aligner.data]; this
    module only distinguishes [TextFileType.LAB] from every other tag. *)
Inductive TextFileType : Type :=
| LAB
| other_format (tag : string).

Definition is_LAB (t : TextFileType) : bool :=
  match t with LAB => true | other_format _ => false end.

Inductive LogLevel : Type := DEBUG | INFO | WARNING | ERROR.

(** ** POSIX path joining, [os.path.join] with two components *)

Definition starts_with_slash (s : string) : bool :=
  match s with
  | String c _ => if Ascii.ascii_dec c "/"%char then true else false
  | EmptyString => false
  end.

Fixpoint ends_with_slash (s : string) : bool :=
  match s with
  | EmptyString => false
  | String c EmptyString => if Ascii.ascii_dec c "/"%char then true else false
  | String _ rest => ends_with_slash rest
  end.

Definition os_path_join (a b : string) : string :=
  if starts_with_slash b then b
  else if (String.length a =? 0)%nat || ends_with_slash a then a ++ b
  else a ++ "/" ++ b.

(** ** Corpus entities read by the exporter

    The classes [File], [SoundFile], [TextFile], [SpeakerOrdering] and the
    interval class live in [montreal_forced_aligner.db] and
    [montreal_forced_aligner.data]; the records keep the attributes that
    [export_files] reads.  Time stamps are only stored and compared, never
    computed with; they are integers counting a fixed time unit. *)

Record Utterance := {
  utt_id : string;
  utt_begin : Z;
  utt_end : Z;
  utt_text : string
}.

Record CtmInterval := {
  ctm_begin : Z;
  ctm_end : Z;
  label : string
}.

Record Speaker := { name : string }.
Record SpeakerOrdering := { speaker : Speaker }.
Record SoundFile := { duration : Z }.
Record TextFile := { file_type : TextFileType }.

Record File := {
  file_name : string;
  relative_path : string;
  utterances : list Utterance;
  speakers : list SpeakerOrdering;
  sound_file : SoundFile;
  text_file : TextFile;
  (** the dictionary returned by [file.construct_transcription_tiers()],
      speaker name to intervals, in iteration order *)
  construct_transcription_tiers : list (string * list CtmInterval)
}.

(** [d[k]] on a dictionary kept as an association list. *)
Fixpoint dict_get {V} (d : list (string * V)) (k : string) : option V :=
  match d with
  | [] => None
  | (k', v) :: rest => if decide (k' = k) then Some v else dict_get rest k
  end.

Definition dict_values {V} (d : list (string * V)) : list V := map snd d.

(** ** The annotation container of praatio

    [praatio.textgrid] is a third-party library.  Its objects are kept as
    plain data: an interval is a (start, end, label) triple, a tier has a
    name, its entries and its time bounds, a text grid has its tiers in the
    order they were added and its time bounds. *)

Record Interval := {
  tg_start : Z;
  tg_end : Z;
  tg_label : string
}.

Record IntervalTier := {
  tier_name : string;
  entryList : list Interval;
  minT : Z;
  maxT : Z
}.

Record Textgrid := {
  tierList : list IntervalTier;
  minTimestamp : option Z;
  maxTimestamp : option Z
}.

Definition new_Textgrid : Textgrid :=
  {| tierList := []; minTimestamp := None; maxTimestamp := None |}.

Definition set_minTimestamp (t : Z) (tg : Textgrid) : Textgrid :=
  {| tierList := tierList tg; minTimestamp := Some t;
     maxTimestamp := maxTimestamp tg |}.

Definition set_maxTimestamp (t : Z) (tg : Textgrid) : Textgrid :=
  {| tierList := tierList tg; minTimestamp := minTimestamp tg;
     maxTimestamp := Some t |}.

Definition addTier (tier : IntervalTier) (tg : Textgrid) : Textgrid :=
  {| tierList := tierList tg ++ [tier]; minTimestamp := minTimestamp tg;
     maxTimestamp := maxTimestamp tg |}.

(** Modelled from the spec: the gap filling that praatio performs when a
    text grid is saved with [includeBlankSpaces=True] is not part of this
    repository.  Following the specification of the multi-tier format, a gap
    before the first interval, between two consecutive intervals and after
    the last one is filled with an interval whose label is empty. *)
Fixpoint fill_blanks (prev hi : Z) (entries : list Interval) : list Interval :=
  match entries with
  | [] =>
      if prev <? hi
      then [ {| tg_start := prev; tg_end := hi; tg_label := "" |} ]
      else []
  | e :: rest =>
      (if prev <? tg_start e
       then [ {| tg_start := prev; tg_end := tg_start e; tg_label := "" |} ]
       else [])
      ++ e :: fill_blanks (tg_end e) hi rest
  end.

(** What ends up on disk for a text grid: the format tag, the declared time
    range and the named tiers. *)
Record TextgridDocument := {
  doc_format : TextFileType;
  doc_xmin : option Z;
  doc_xmax : option Z;
  doc_tiers : list (string * list Interval)
}.

Definition saved_tier (includeBlankSpaces : bool) (t : IntervalTier)
  : string * list Interval :=
  (tier_name t,
   if includeBlankSpaces then fill_blanks (minT t) (maxT t) (entryList t)
   else entryList t).

(** Modelled from the spec: [Textgrid.save] of praatio, which serialises the
    declared time range and every tier, gap-filled on request, in the
    dialect named by [format]. *)
Definition serialise (tg : Textgrid) (includeBlankSpaces : bool)
    (format : TextFileType) : TextgridDocument :=
  {| doc_format := format;
     doc_xmin := minTimestamp tg;
     doc_xmax := maxTimestamp tg;
     doc_tiers := map (saved_tier includeBlankSpaces) (tierList tg) |}.

(** ** The disk *)

Inductive content : Type :=
| Text (s : string)
| Grid (doc : TextgridDocument).

Inductive io_event : Type :=
| Makedirs (path : string)
| OpenW (path : string)
| WriteText (path : string) (s : string)
| SaveGrid (path : string) (doc : TextgridDocument).

(** Directories, regular files, and the journal of the operations that
    changed them (oldest first).  Failures of the operating system itself
    (permissions, a full disk) are outside the model. *)
Record FileSystem := {
  dirs : gset string;
  files : gmap string content;
  journal : list io_event
}.

Definition fs_exists (p : string) (d : FileSystem) : bool :=
  bool_decide (p ∈ dirs d) || bool_decide (is_Some (files d !! p)).

Definition fs_makedirs (p : string) (d : FileSystem) : FileSystem :=
  {| dirs := {[ p ]} ∪ dirs d; files := files d;
     journal := journal d ++ [Makedirs p] |}.

Definition fs_put (ev : io_event) (p : string) (c : content)
    (d : FileSystem) : FileSystem :=
  {| dirs := dirs d; files := <[ p := c ]> (files d);
     journal := journal d ++ [ev] |}.

(** ** The classifier object, the world and the monad of methods *)

Section Classifier.

(** Python floats, with [float(x)] on a string: [None] stands for the
    [ValueError] that the conversion raises. *)
Context {F : Type}.
Variable float_of_string : string → option F.

(** The ivector extractor model, [montreal_forced_aligner.models]. *)
Record IvectorExtractorModel := {
  source_path : string;
  parameters : gmap string string
}.

(** The attributes that the base classes ([IvectorCorpusMixin],
    [TopLevelMfaWorker], [FileExporterMixin]) provide and this module
    reads. *)
Record Worker := {
  identifier : string;
  working_directory : string;
  output_directory : string;
  overwrite : bool
}.

Record SpeakerClassifier := {
  base : Worker;
  ivector_extractor : IvectorExtractorModel;
  classifier : option unit;
  speaker_labels : gmap string string;
  ivectors : gmap string (list F);
  expected_num_speakers : Z;
  cluster : bool
}.

Record World := {
  self : SpeakerClassifier;
  (** the rows that [session.query(File)] yields, in order *)
  database : list File;
  disk : FileSystem;
  logged : list (LogLevel * string)
}.

Definition M (A : Type) : Type := World → World * outcome A.

Definition ret {A} (a : A) : M A := λ w, (w, Returned a).

Definition raise {A} (e : exn) : M A := λ w, (w, Raised e).

Definition bind {A B} (c : M A) (k : A → M B) : M B :=
  λ w, match c w with
       | (w', Returned a) => k a w'
       | (w', Raised e) => (w', Raised e)
       end.

(** [try: c except Exception as e: handler e] *)
Definition try_except {A} (c : M A) (handler : exn → M A) : M A :=
  λ w, match c w with
       | (w', Returned a) => (w', Returned a)
       | (w', Raised e) => handler e w'
       end.

Notation "x <- c ;; k" := (bind c (λ x, k))
  (at level 100, c at next level, right associativity).
Notation "c ;;; k" := (bind c (λ _, k))
  (at level 100, right associativity).

(** [for x in l: body x] *)
Fixpoint for_each {A} (l : list A) (body : A → M unit) : M unit :=
  match l with
  | [] => ret tt
  | x :: rest => body x ;;; for_each rest body
  end.

Definition lift {A} (r : outcome A) : M A := λ w, (w, r).

Definition get_self : M SpeakerClassifier := λ w, (w, Returned (self w)).

Definition with_self (f : SpeakerClassifier → SpeakerClassifier) : M unit :=
  λ w, ({| self := f (self w); database := database w; disk := disk w;
           logged := logged w |}, Returned tt).

Definition with_disk (f : FileSystem → FileSystem) : M unit :=
  λ w, ({| self := self w; database := database w; disk := f (disk w);
           logged := logged w |}, Returned tt).

Definition log (lvl : LogLevel) (msg : string) : M unit :=
  λ w, ({| self := self w; database := database w; disk := disk w;
           logged := logged w ++ [(lvl, msg)] |}, Returned tt).

Definition log_info := log INFO.
Definition log_debug := log DEBUG.
Definition log_error := log ERROR.

Definition os_path_exists (p : string) : M bool :=
  λ w, (w, Returned (fs_exists p (disk w))).

(** [os.makedirs(p, exist_ok=True)] *)
Definition os_makedirs (p : string) : M unit := with_disk (fs_makedirs p).

(** [mfa_open(p, "w")]: the file is created or truncated. *)
Definition mfa_open_w (p : string) : M unit :=
  with_disk (fs_put (OpenW p) p (Text "")).

(** [f.write(s)] on a file that was just opened for writing. *)
Definition file_write (p s : string) : M unit :=
  with_disk (fs_put (WriteText p s) p (Text s)).

(** [tg.save(p, includeBlankSpaces=..., format=...)] *)
Definition tg_save (tg : Textgrid) (p : string) (includeBlankSpaces : bool)
    (format : TextFileType) : M unit :=
  let doc := serialise tg includeBlankSpaces format in
  with_disk (fs_put (SaveGrid p doc) p (Grid doc)).

Definition set_ivectors (m : gmap string (list F))
    (s : SpeakerClassifier) : SpeakerClassifier :=
  {| base := base s; ivector_extractor := ivector_extractor s;
     classifier := classifier s; speaker_labels := speaker_labels s;
     ivectors := m; expected_num_speakers := expected_num_speakers s;
     cluster := cluster s |}.

(** ** [__init__] *)

(** Loading the model file and the initialisers of the base classes. *)
Variable load_extractor : string → outcome IvectorExtractorModel.
Variable super_init : gmap string string → outcome Worker.

Definition init (ivector_extractor_path : string)
    (expected_num_speakers0 : Z) (cluster0 : bool)
    (kwargs : gmap string string) : outcome SpeakerClassifier :=
  match load_extractor ivector_extractor_path with
  | Raised e => Raised e
  | Returned extractor =>
      (* kwargs.update(self.ivector_extractor.parameters) *)
      let kwargs := parameters extractor ∪ kwargs in
      match super_init kwargs with
      | Raised e => Raised e
      | Returned b =>
          Returned {| base := b;
                      ivector_extractor := extractor;
                      classifier := None;
                      speaker_labels := ∅;
                      ivectors := ∅;
                      expected_num_speakers := expected_num_speakers0;
                      cluster := cluster0 |}
      end
  end.

(** ** Properties *)

Definition workflow_identifier : string := "speaker_classification".

Definition ie_path (s : SpeakerClassifier) : string :=
  os_path_join (working_directory (base s)) "final.ie".

Definition model_path (s : SpeakerClassifier) : string :=
  os_path_join (working_directory (base s)) "final.mdl".

Definition dubm_path (s : SpeakerClassifier) : string :=
  os_path_join (working_directory (base s)) "final.dubm".

(** ** [setup] *)

Variable check_previous_run : M bool.
Variable load_corpus : M unit.
Variable export_model : string → M unit.
Variable extract_ivectors : M unit.
Variable log_kaldi_errors : list string → M unit.
Variable update_log_file : list string → M unit.

Definition done_message : string :=
  "Classification already done, skipping initialization.".

Definition setup : M unit :=
  check_previous_run ;;;
  s <- get_self ;;
  let done_path := os_path_join (working_directory (base s)) "done" in
  found <- os_path_exists done_path ;;
  if found then log_info done_message
  else
    let log_dir := os_path_join (working_directory (base s)) "log" in
    os_makedirs log_dir ;;;
    try_except
      (load_corpus ;;;
       export_model (working_directory (base s)) ;;;
       extract_ivectors)
      (λ e,
        match e with
        | KaldiProcessingError error_logs =>
            log_kaldi_errors error_logs ;;;
            update_log_file error_logs ;;;
            raise e
        | _ => raise e
        end).

(** ** [load_ivectors] *)

Record ExtractIvectorsArguments := { ivectors_path : string }.

Variable extract_ivectors_arguments :
  SpeakerClassifier → list ExtractIvectorsArguments.

(** [load_scp(path)]: the items of the dictionary it returns, an utterance
    identifier with the components read from its line. *)
Variable load_scp : string → list (string * list string).

Definition float_error (x : string) : exn :=
  ValueError ("could not convert string to float: '" ++ x ++ "'").

(** [[float(x) for x in ivector]] *)
Fixpoint floats (ivector : list string) : outcome (list F) :=
  match ivector with
  | [] => Returned []
  | x :: rest =>
      match float_of_string x with
      | None => Raised (float_error x)
      | Some v =>
          match floats rest with
          | Returned vs => Returned (v :: vs)
          | Raised e => Raised e
          end
      end
  end.

Definition store_ivector (utt : string) (ivector : list F) : M unit :=
  with_self (λ s, set_ivectors (<[ utt := ivector ]> (ivectors s)) s).

Definition load_entry (entry : string * list string) : M unit :=
  let '(utt, ivector) := entry in
  ivector <- lift (floats ivector) ;;
  store_ivector utt ivector.

Definition load_ivectors : M unit :=
  with_self (set_ivectors ∅) ;;;
  s <- get_self ;;
  for_each (extract_ivectors_arguments s) (λ ivectors_args,
    let ivec := load_scp (ivectors_path ivectors_args) in
    for_each ivec load_entry).

(** ** [cluster_utterances] *)

Definition diarization_message : string :=
  "Speaker diarization functionality is currently under construction and not working in the current version.".

Definition cluster_utterances : M unit :=
  log_error diarization_message ;;;
  raise (NotImplementedError diarization_message).

(** ** [export_files] *)

(** [construct_output_path(name, relative_path, output_directory,
    output_format=...)] of [montreal_forced_aligner.alignment], and the
    conversion [to_tg_interval()] of the interval class. *)
Variable construct_output_path :
  string → string → string → TextFileType → string.
Variable to_tg_interval : CtmInterval → Interval.

Definition index_error : exn := IndexError "list index out of range".

(** The single-label branch: the loop over [data.values()]. *)
Definition export_lab (output_path : string)
    (data : list (string * list CtmInterval)) : M unit :=
  for_each (dict_values data) (λ intervals,
    (* with mfa_open(output_path, "w") as f: f.write(intervals[0].label) *)
    mfa_open_w output_path ;;;
    match intervals with
    | [] => raise index_error
    | first :: _ => file_write output_path (label first)
    end).

(** The loop over [file.speakers] of the multi-tier branch; it touches only
    the local text grid. *)
Fixpoint add_speaker_tiers (data : list (string * list CtmInterval))
    (duration : Z) (spks : list SpeakerOrdering) (tg : Textgrid)
  : outcome Textgrid :=
  match spks with
  | [] => Returned tg
  | sp :: rest =>
      let speaker := name (speaker sp) in
      match dict_get data speaker with
      | None => Raised (KeyError speaker)
      | Some intervals =>
          let tier := {| tier_name := speaker;
                         entryList := map to_tg_interval intervals;
                         minT := 0;
                         maxT := duration |} in
          add_speaker_tiers data duration rest (addTier tier tg)
      end
  end.

Definition export_textgrid (file : File) (output_path : string)
    (data : list (string * list CtmInterval)) (duration : Z) : M unit :=
  let tg := new_Textgrid in
  let tg := set_minTimestamp 0 tg in
  let tg := set_maxTimestamp duration tg in
  tg <- lift (add_speaker_tiers data duration (speakers file) tg) ;;
  tg_save tg output_path true (file_type (text_file file)).

(** The body of the loop over the files of the corpus. *)
Definition export_file (file : File) : M unit :=
  s <- get_self ;;
  let utterance_count := List.length (utterances file) in
  let duration := duration (sound_file file) in
  (if (utterance_count =? 0)%nat
   then log_debug ("Could not find any utterances for " ++ file_name file)
   else ret tt) ;;;
  let output_path :=
    construct_output_path (file_name file) (relative_path file)
      (output_directory (base s)) (file_type (text_file file)) in
  let data := construct_transcription_tiers file in
  if is_LAB (file_type (text_file file))
  then export_lab output_path data
  else export_textgrid file output_path data duration.

Definition export_files (output_directory : string) : M unit :=
  s <- get_self ;;
  found <- os_path_exists output_directory ;;
  let output_directory :=
    if negb (overwrite (base s)) && found
    then os_path_join (working_directory (base s)) "transcriptions"
    else output_directory in
  os_makedirs output_directory ;;;
  rows <- (λ w, (w, Returned (database w))) ;;
  for_each rows export_file.

End Classifier.

Arguments World : clear implicits.
Arguments SpeakerClassifier : clear implicits.
Arguments M : clear implicits.

(** ** [parse_parameters]

    The class method builds a dictionary of parameters from a configuration
    file, when there is one, and from the command line. *)

Section ParseParameters.

(** Python values as the method sees them: it tells [None] from the rest,
    stores an empty list, and opens dictionaries.  Every other value
    (a string, a number, a Boolean, a list with elements) is opaque. *)
Context {V : Type}.

#[local] Unset Elimination Schemes.
Inductive PyValue : Type :=
| PyNone
| PyEmptyList
| PyDict (d : gmap string PyValue)
| PyOther (v : V).
#[local] Set Elimination Schemes.

Definition is_None (v : PyValue) : bool :=
  match v with PyNone => true | _ => false end.

(** [load_configuration(path)]: the items of the loaded dictionary, in
    iteration order. *)
Variable load_configuration : string → list (string * PyValue).

(** [cls.nullable_fields] and [cls.parse_args(args, unknown_args)], of the
    base classes. *)
Variable nullable_fields : list string.
Context {Namespace UnknownArgs : Type}.
Variable parse_args : Namespace → UnknownArgs → gmap string PyValue.

(** What [if "type" in v: ...] followed by [global_params.update(v)] does
    when the value under [features] is an opaque value: Python decides by
    the shape of the value, which this module does not look at. *)
Variable update_from_opaque :
  V → gmap string PyValue → outcome (gmap string PyValue).

(** [v["feature_type"] = v["type"]; del v["type"]] when [v] has the key
    [type]. *)
Definition rename_type (v : gmap string PyValue) : gmap string PyValue :=
  match v !! "type" with
  | Some t => delete "type" (<[ "feature_type" := t ]> v)
  | None => v
  end.

Definition none_type_error : exn :=
  OtherError "TypeError" "argument of type 'NoneType' is not iterable".

(** The body of the loop over [data.items()]. *)
Definition parse_item (global_params : gmap string PyValue)
    (item : string * PyValue) : outcome (gmap string PyValue) :=
  let '(k, v) := item in
  if decide (k = "features") then
    match v with
    | PyDict d =>
        (* global_params.update(v), after the renaming *)
        Returned (rename_type d ∪ global_params)
    | PyNone => Raised none_type_error
    | PyEmptyList => Returned global_params
    | PyOther x => update_from_opaque x global_params
    end
  else
    let v :=
      if is_None v && bool_decide (k ∈ nullable_fields)
      then PyEmptyList else v in
    Returned (<[ k := v ]> global_params).

Fixpoint parse_items (global_params : gmap string PyValue)
    (data : list (string * PyValue)) : outcome (gmap string PyValue) :=
  match data with
  | [] => Returned global_params
  | item :: rest =>
      match parse_item global_params item with
      | Returned global_params => parse_items global_params rest
      | Raised e => Raised e
      end
  end.

Definition parse_parameters (d : FileSystem) (config_path : option string)
    (args : Namespace) (unknown_args : UnknownArgs)
  : outcome (gmap string PyValue) :=
  let global_params : gmap string PyValue := ∅ in
  let loaded :=
    match config_path with
    | Some config_path =>
        (* if config_path and os.path.exists(config_path) *)
        if negb (String.length config_path =? 0)%nat
           && fs_exists config_path d
        then parse_items global_params (load_configuration config_path)
        else Returned global_params
    | None => Returned global_params
    end in
  match loaded with
  | Returned global_params =>
      (* global_params.update(cls.parse_args(args, unknown_args)) *)
      Returned (parse_args args unknown_args ∪ global_params)
  | Raised e => Raised e
  end.

End ParseParameters.

Arguments PyValue : clear implicits.

(** * Vocabulary of the properties *)

(** A tier whose intervals are in chronological order, do not overlap and
    stay within the time range from [lo] to [hi]. *)
Fixpoint chronological (lo hi : Z) (entries : list Interval) : Prop :=
  match entries with
  | [] => lo ≤ hi
  | e :: rest =>
      lo ≤ tg_start e ∧ tg_start e ≤ tg_end e ∧ chronological (tg_end e) hi rest
  end.

(** A tier that covers the time range from [lo] to [hi] without a gap: it
    starts at [lo], every interval starts where the previous one ended, and
    the last one ends at [hi]. *)
Fixpoint covers (lo hi : Z) (entries : list Interval) : Prop :=
  match entries with
  | [] => lo = hi
  | e :: rest =>
      tg_start e = lo ∧ tg_start e ≤ tg_end e ∧ covers (tg_end e) hi rest
  end.

(** The journal entries of one pass of the single-label loop over the tiers
    of a file, when no tier is empty. *)
Definition lab_events (output_path : string)
    (tiers : list (list CtmInterval)) : list io_event :=
  flat_map (λ intervals,
    match intervals with
    | [] => [OpenW output_path]
    | first :: _ => [OpenW output_path; WriteText output_path (label first)]
    end) tiers.

Section Vocabulary.

Context {F : Type}.
Variable float_of_string : string → option F.
Variable extract_ivectors_arguments :
  SpeakerClassifier F → list ExtractIvectorsArguments.
Variable load_scp : string → list (string * list string).
Variable construct_output_path :
  string → string → string → TextFileType → string.
Variable to_tg_interval : CtmInterval → Interval.

Definition replace_self (s : SpeakerClassifier F) (w : World F) : World F :=
  {| self := s; database := database w; disk := disk w; logged := logged w |}.

Definition replace_disk (d : FileSystem) (w : World F) : World F :=
  {| self := self w; database := database w; disk := d; logged := logged w |}.

Definition add_log (lvl : LogLevel) (msg : string) (w : World F) : World F :=
  {| self := self w; database := database w; disk := disk w;
     logged := logged w ++ [(lvl, msg)] |}.

(** Where [setup] looks for the completion marker. *)
Definition done_path (w : World F) : string :=
  os_path_join (working_directory (base (self w))) "done".

(** Every line of every input vector file, in the order [load_ivectors]
    visits them. *)
Definition scp_items (s : SpeakerClassifier F) : list (string * list string) :=
  concat (map (λ a, load_scp (ivectors_path a))
              (extract_ivectors_arguments (set_ivectors ∅ s))).

Definition parseable (x : string) : Prop := is_Some (float_of_string x).

Fixpoint first_bad_component (ivector : list string) : option string :=
  match ivector with
  | [] => None
  | x :: rest =>
      match float_of_string x with
      | None => Some x
      | Some _ => first_bad_component rest
      end
  end.

(** The first component, in reading order, that [float] rejects. *)
Fixpoint first_unparseable (items : list (string * list string))
  : option string :=
  match items with
  | [] => None
  | (_, ivector) :: rest =>
      match first_bad_component ivector with
      | Some x => Some x
      | None => first_unparseable rest
      end
  end.

(** A computation that leaves the object and the database alone and whose
    outcome and file writes are fixed by them: whatever the disk and the log
    hold, it returns or raises the same thing and overwrites the same paths
    with the same contents ([L]), touching no other file. *)
Definition writes_only {A} (c : M F A) : Prop :=
  ∀ s db, ∃ (L : gmap string content) (r : outcome A),
    ∀ w, self w = s → database w = db →
      ∃ w', c w = (w', r) ∧ self w' = s ∧ database w' = db ∧
            files (disk w') = L ∪ files (disk w).

(** The tier that the multi-tier branch builds for a speaker of a file. *)
Definition speaker_tier (data : list (string * list CtmInterval))
    (duration : Z) (sp : SpeakerOrdering) : IntervalTier :=
  {| tier_name := name (speaker sp);
     entryList := map to_tg_interval
                      (default [] (dict_get data (name (speaker sp))));
     minT := 0;
     maxT := duration |}.

(** The directory that [export_files] creates: the requested one, or the
    [transcriptions] directory of the working directory when the requested
    one exists and overwriting is off. *)
Definition chosen_directory (output_directory : string) (w : World F)
  : string :=
  if negb (overwrite (base (self w))) && fs_exists output_directory (disk w)
  then os_path_join (working_directory (base (self w))) "transcriptions"
  else output_directory.

(** Where the annotation of a file is written. *)
Definition output_path_of (s : SpeakerClassifier F) (file : File) : string :=
  construct_output_path (file_name file) (relative_path file)
    (output_directory (base s)) (file_type (text_file file)).

(** What a speaker's tier in a saved text grid owes to the speaker and to
    the transcription data of the file. *)
Definition tier_of_speaker (file : File) (sp : SpeakerOrdering)
    (tier : string * list Interval) : Prop :=
  tier.1 = name (speaker sp)
  ∧ ∃ intervals,
      dict_get (construct_transcription_tiers file) (name (speaker sp))
        = Some intervals
      ∧ covers 0 (duration (sound_file file)) tier.2
      ∧ map to_tg_interval intervals `sublist_of` tier.2
      ∧ ∀ e, e ∈ tier.2 →
             e ∈ map to_tg_interval intervals ∨ tg_label e = "".

End Vocabulary.

(** * Concrete collaborators and corpora used in the examples *)

Module Sample.

(** A float conversion restricted to the strings the examples use: a
    non-empty string of decimal digits denotes its number, and a string with
    any other character is rejected. *)
Definition digit_value (c : ascii) : option Z :=
  let n := Z.of_nat (nat_of_ascii c) in
  if (48 <=? n) && (n <=? 57) then Some (n - 48) else None.

Fixpoint digits (acc : Z) (s : string) : option Z :=
  match s with
  | EmptyString => Some acc
  | String c rest =>
      match digit_value c with
      | Some d => digits (10 * acc + d) rest
      | None => None
      end
  end.

Definition float_of_digits (s : string) : option Z :=
  match s with
  | EmptyString => None
  | _ => digits 0 s
  end.

Definition extension (t : TextFileType) : string :=
  if is_LAB t then ".lab" else ".TextGrid".

(** An output path builder: the directory, the relative path when there is
    one, then the file name with the extension of the format. *)
Definition output_path_in (name relative_path output_directory : string)
    (t : TextFileType) : string :=
  let relative :=
    if (String.length relative_path =? 0)%nat then output_directory
    else os_path_join output_directory relative_path in
  os_path_join relative (name ++ extension t).

Definition triple (x : CtmInterval) : Interval :=
  {| tg_start := ctm_begin x; tg_end := ctm_end x; tg_label := label x |}.

Definition extractor : IvectorExtractorModel :=
  {| source_path := "/models/ivector.zip"; parameters := ∅ |}.

Definition worker : Worker :=
  {| identifier := "corpus";
     working_directory := "/tmp/mfa/corpus/speaker_classification";
     output_directory := "/tmp/mfa/corpus";
     overwrite := false |}.

Definition load_extractor (p : string) : outcome IvectorExtractorModel :=
  Returned {| source_path := p; parameters := ∅ |}.

Definition super_init (kwargs : gmap string string) : outcome Worker :=
  Returned worker.

Definition classifier_object : SpeakerClassifier Z :=
  {| base := worker; ivector_extractor := extractor; classifier := None;
     speaker_labels := ∅; ivectors := ∅; expected_num_speakers := 0;
     cluster := true |}.

Definition textgrid_tag : TextFileType := other_format "long_textgrid".

Definition ordering (n : string) : SpeakerOrdering :=
  {| speaker := {| name := n |} |}.

Definition utt (i : string) (b e : Z) (t : string) : Utterance :=
  {| utt_id := i; utt_begin := b; utt_end := e; utt_text := t |}.

Definition ctm (b e : Z) (l : string) : CtmInterval :=
  {| ctm_begin := b; ctm_end := e; label := l |}.

(** A nine-unit recording with three utterances of the speakers A, A, B. *)
Definition recording : File :=
  {| file_name := "rec1"; relative_path := "";
     utterances := [utt "u1" 0 2 "text1"; utt "u2" 2 5 "text2";
                    utt "u3" 6 9 "text3"];
     speakers := [ordering "A"; ordering "B"];
     sound_file := {| duration := 9 |};
     text_file := {| file_type := textgrid_tag |};
     construct_transcription_tiers :=
       [("A", [ctm 0 2 "text1"; ctm 2 5 "text2"]);
        ("B", [ctm 6 9 "text3"])] |}.

(** A label file with two tiers in its transcription data. *)
Definition label_file : File :=
  {| file_name := "rec2"; relative_path := "";
     utterances := [utt "u1" 0 2 "first"; utt "u2" 2 3 "more";
                    utt "u3" 3 4 "second"];
     speakers := [ordering "A"; ordering "B"];
     sound_file := {| duration := 4 |};
     text_file := {| file_type := LAB |};
     construct_transcription_tiers :=
       [("A", [ctm 0 2 "first"; ctm 2 3 "more"]);
        ("B", [ctm 3 4 "second"])] |}.

(** A label file whose only tier has no interval. *)
Definition empty_label_file : File :=
  {| file_name := "rec3"; relative_path := "";
     utterances := [];
     speakers := [ordering "A"];
     sound_file := {| duration := 4 |};
     text_file := {| file_type := LAB |};
     construct_transcription_tiers := [("A", [])] |}.

(** A label file without utterances, whose transcription data has no tier
    at all. *)
Definition silent_label_file : File :=
  {| file_name := "rec4"; relative_path := "";
     utterances := [];
     speakers := [ordering "A"];
     sound_file := {| duration := 4 |};
     text_file := {| file_type := LAB |};
     construct_transcription_tiers := [] |}.

(** A recording one of whose speakers has no utterance, hence no tier in
    the transcription data. *)
Definition recording_with_silent_speaker : File :=
  {| file_name := "rec5"; relative_path := "";
     utterances := [utt "u1" 0 2 "text1"];
     speakers := [ordering "A"; ordering "B"];
     sound_file := {| duration := 9 |};
     text_file := {| file_type := textgrid_tag |};
     construct_transcription_tiers := [("A", [ctm 0 2 "text1"])] |}.

Definition empty_disk : FileSystem :=
  {| dirs := ∅; files := ∅; journal := [] |}.

(** A disk on which the requested output directory already exists. *)
Definition disk_with_output : FileSystem :=
  {| dirs := {[ "/data/out" ]}; files := ∅; journal := [] |}.

(** A disk on which the completion marker exists. *)
Definition disk_with_marker : FileSystem :=
  {| dirs := {[ "/tmp/mfa/corpus/speaker_classification" ]};
     files := {[ "/tmp/mfa/corpus/speaker_classification/done" := Text "" ]};
     journal := [] |}.

Definition world (rows : list File) (d : FileSystem) : World Z :=
  {| self := classifier_object; database := rows; disk := d; logged := [] |}.

Definition redirected_directory : string :=
  "/tmp/mfa/corpus/speaker_classification/transcriptions".

(** The collaborators of the exporter and of the loader, applied. *)
Definition export (output_directory : string) : M Z unit :=
  export_files output_path_in triple output_directory.

Definition export_one (file : File) : M Z unit :=
  export_file output_path_in triple file.

Definition shard_arguments (s : SpeakerClassifier Z)
  : list ExtractIvectorsArguments :=
  [ {| ivectors_path := "ivectors.1.scp" |};
    {| ivectors_path := "ivectors.2.scp" |} ].

(** Two shards with vectors of equal length. *)
Definition load_scp (path : string) : list (string * list string) :=
  if decide (path = "ivectors.1.scp")
  then [("utt1", ["1"; "2"]); ("utt2", ["3"; "4"])]
  else if decide (path = "ivectors.2.scp")
  then [("utt3", ["5"; "6"])]
  else [].

(** Shards in which the second vector is longer than the first. *)
Definition load_scp_ragged (path : string) : list (string * list string) :=
  if decide (path = "ivectors.1.scp")
  then [("utt1", ["1"; "2"]); ("utt2", ["3"; "4"; "5"])]
  else [].

(** Shards in which a component of the second line is not a number. *)
Definition load_scp_malformed (path : string) : list (string * list string) :=
  if decide (path = "ivectors.1.scp")
  then [("utt1", ["1"; "2"]); ("utt2", ["3"; "abc"])]
  else [].

Definition load (scp : string → list (string * list string)) : M Z unit :=
  load_ivectors float_of_digits shard_arguments scp.

(** Collaborators of [setup] that leave a trace in the log when they run. *)
Definition check_previous_run : M Z bool := λ w, (w, Returned true).
Definition load_corpus : M Z unit := log INFO "load_corpus".
Definition export_model (d : string) : M Z unit := log INFO "export_model".
Definition extract_ivectors : M Z unit := log INFO "extract_ivectors".
Definition log_kaldi_errors (l : list string) : M Z unit := log ERROR "kaldi".
Definition update_log_file (l : list string) : M Z unit := λ w, (w, Returned tt).

Definition run_setup : M Z unit :=
  setup check_previous_run load_corpus export_model extract_ivectors
        log_kaldi_errors update_log_file.

Definition construct (cluster_flag : bool) : outcome (SpeakerClassifier Z) :=
  init load_extractor super_init "/models/ivector.zip" 0 cluster_flag ∅.

End Sample.

(** * Further vocabulary *)

Section FurtherVocabulary.

Context {F : Type}.
Variable construct_output_path :
  string → string → string → TextFileType → string.

(** The three steps that [setup] runs inside its [try]. *)
Definition setup_steps (load_corpus : M F unit)
    (export_model : string → M F unit) (extract_ivectors : M F unit)
    (working_directory : string) : M F unit :=
  bind load_corpus (λ _,
    bind (export_model working_directory) (λ _, extract_ivectors)).

(** The world in which those steps start: the log directory exists. *)
Definition with_log_directory (w : World F) : World F :=
  replace_disk
    (fs_makedirs (os_path_join (working_directory (base (self w))) "log")
                 (disk w)) w.

(** The world in which the loop of [export_files] starts: the chosen
    directory exists. *)
Definition with_chosen_directory (output_directory : string) (w : World F)
  : World F :=
  replace_disk
    (fs_makedirs (chosen_directory output_directory w) (disk w)) w.

(** The line that the exporter logs for a file without utterances. *)
Definition utterance_notice (file : File) : LogLevel * string :=
  (DEBUG, "Could not find any utterances for " ++ file_name file).

(** What the exporter may change between two worlds while it handles the
    files [rows]: only the files at the output paths of those rows, the
    journal, and the log, which grows by notices about rows without
    utterances. *)
Definition export_frame (rows : list File) (w w' : World F) : Prop :=
  self w' = self w
  ∧ database w' = database w
  ∧ dirs (disk w') = dirs (disk w)
  ∧ (∀ q, (∀ f, f ∈ rows →
                q ≠ output_path_of construct_output_path (self w) f) →
          files (disk w') !! q = files (disk w) !! q)
  ∧ ∃ added,
      logged w' = (logged w ++ added)%list
      ∧ Forall (λ line, ∃ f, f ∈ rows ∧ utterances f = []
                             ∧ line = utterance_notice f) added.

End FurtherVocabulary.

(** * Further concrete collaborators *)

Module SampleConfig.

Definition opaque (s : string) : PyValue string := PyOther s.

(** A configuration file with a [features] section, a setting that the
    command line overrides and a nullable setting left empty. *)
Definition load_configuration (path : string)
  : list (string * PyValue string) :=
  [("features", PyDict {[ "type" := opaque "mfcc";
                          "use_pitch" := opaque "true" ]});
   ("beam", opaque "10");
   ("ignore_case", PyNone)].

Definition load_features_only (path : string)
  : list (string * PyValue string) :=
  [("features", PyDict {[ "type" := opaque "mfcc";
                          "use_pitch" := opaque "true" ]})].

Definition load_settings_only (path : string)
  : list (string * PyValue string) :=
  [("beam", opaque "10"); ("ignore_case", PyNone); ("beam", opaque "12")].

Definition nullable_fields : list string := ["ignore_case"].

Definition parse_args (args unknown_args : unit)
  : gmap string (PyValue string) :=
  {[ "beam" := opaque "100" ]}.

Definition update_from_opaque (x : string)
    (global_params : gmap string (PyValue string))
  : outcome (gmap string (PyValue string)) :=
  Raised (OtherError "ValueError" "dictionary update sequence element").

Definition disk_with_config : FileSystem :=
  {| dirs := ∅; files := {[ "config.yaml" := Text "" ]}; journal := [] |}.

Definition parse (load : string → list (string * PyValue string))
    (config_path : option string)
  : outcome (gmap string (PyValue string)) :=
  parse_parameters load nullable_fields parse_args update_from_opaque
    disk_with_config config_path tt tt.

(** Collaborators of [setup] that fail. *)
Definition failing_load_corpus : M Z unit :=
  raise (OtherError "CorpusError" "no sound files").

Definition failing_extract_ivectors : M Z unit :=
  raise (KaldiProcessingError ["ivector-extract.log"]).

(** An extractor model that sets the feature type. *)
Definition load_extractor (p : string) : outcome IvectorExtractorModel :=
  Returned {| source_path := p;
              parameters := {[ "feature_type" := "mfcc" ]} |}.

(** Base classes that name the worker after the [identifier] argument and
    reject a missing corpus directory. *)
Definition super_init (kwargs : gmap string string) : outcome Worker :=
  match kwargs !! "corpus_directory" with
  | Some d =>
      Returned {| identifier := default "corpus" (kwargs !! "feature_type");
                  working_directory := d ++ "/speaker_classification";
                  output_directory := d;
                  overwrite := false |}
  | None => Raised (OtherError "TypeError" "missing corpus_directory")
  end.

(** Shards in which the third line has a component that is not a number. *)
Definition load_scp_broken (path : string) : list (string * list string) :=
  if decide (path = "ivectors.1.scp")
  then [("utt1", ["1"; "2"]); ("utt2", ["3"; "4"]);
        ("utt3", ["5"; "x6"]); ("utt4", ["7"; "8"])]
  else [].

(** A label file whose second tier has no interval. *)
Definition half_empty_label_file : File :=
  {| file_name := "rec6"; relative_path := "";
     utterances := [Sample.utt "u1" 0 2 "first"];
     speakers := [Sample.ordering "A"; Sample.ordering "B"];
     sound_file := {| duration := 4 |};
     text_file := {| file_type := LAB |};
     construct_transcription_tiers :=
       [("A", [Sample.ctm 0 2 "first"]); ("B", [])] |}.

Definition setup_with (load_corpus : M Z unit)
    (export_model : string → M Z unit) (extract_ivectors : M Z unit)
  : M Z unit :=
  setup Sample.check_previous_run load_corpus export_model extract_ivectors
        Sample.log_kaldi_errors Sample.update_log_file.

Definition construct (kwargs : gmap string string)
  : outcome (SpeakerClassifier Z) :=
  init load_extractor super_init "/models/ivector.zip" 0 true kwargs.

End SampleConfig.

(** * Properties *)

(** ** Laws of the monad of methods *)

Section MonadLaws.

Context {F : Type}.
Implicit Types w : World F.

Lemma bind_returned {A B} (c : M F A) (k : A → M F B) w w' a :
  c w = (w', Returned a) → bind c k w = k a w'.
Proof. intros H. unfold bind. by rewrite H. Qed.

Lemma bind_raised {A B} (c : M F A) (k : A → M F B) w w' e :
  c w = (w', Raised e) → bind c k w = (w', Raised e).
Proof. intros H. unfold bind. by rewrite H. Qed.

Lemma for_each_app {A} (l1 l2 : list A) (body : A → M F unit) w :
  for_each (l1 ++ l2) body w
  = bind (for_each l1 body) (λ _, for_each l2 body) w.
Proof.
  revert w. induction l1 as [|x l1 IH]; intros w; simpl.
  - reflexivity.
  - unfold bind. destruct (body x w) as [w1 [[]|e]].
    + rewrite IH. reflexivity.
    + reflexivity.
Qed.

(** A loop nested in a loop visits the concatenation of the inner lists. *)
Lemma for_each_nested {A B} (g : A → list B) (body : B → M F unit)
    (l : list A) w :
  for_each l (λ a, for_each (g a) body) w
  = for_each (concat (map g l)) body w.
Proof.
  revert w. induction l as [|a l IH]; intros w; simpl.
  - reflexivity.
  - rewrite for_each_app. unfold bind.
    destruct (for_each (g a) body w) as [w1 [[]|e]]; [apply IH | reflexivity].
Qed.

End MonadLaws.

(** ** [cluster_utterances] *)

(** C1.  Every call of [cluster_utterances] raises [NotImplementedError]
    with the message that speaker diarization is not working in the current
    version, whatever ivectors, cluster flag and expected speaker count the
    object holds.  The call only adds the same message to the log as an
    error: the object, with its speaker labels, the database and the disk
    are as before, so no speaker assignment is produced. *)
Theorem cluster_utterances_not_implemented {F : Type} (w : World F) :
  cluster_utterances w
  = (add_log ERROR diarization_message w,
     Raised (NotImplementedError
       "Speaker diarization functionality is currently under construction and not working in the current version."))
  ∧ self (cluster_utterances w).1 = self w
  ∧ speaker_labels (self (cluster_utterances w).1) = speaker_labels (self w)
  ∧ disk (cluster_utterances w).1 = disk w.
Proof. repeat split. Qed.

(** ** [__init__] *)

Section Construction.

Context {F : Type}.
Variable load_extractor : string → outcome IvectorExtractorModel.
Variable super_init : gmap string string → outcome Worker.

(** C9 (as amended).  Construction does not look at reference speaker
    models.  With the cluster flag false, whenever the extractor model loads
    and the base classes initialise, [__init__] returns an object in
    classification mode with no classifier, no speaker labels and no
    ivectors; and the one entry point of the engine, [cluster_utterances],
    then fails with [NotImplementedError] and leaves the ivectors
    untouched. *)
Theorem init_classification_mode_succeeds
    (path : string) (n : Z) (kwargs : gmap string string)
    (extractor : IvectorExtractorModel) (b : Worker) :
  load_extractor path = Returned extractor →
  super_init (parameters extractor ∪ kwargs) = Returned b →
  ∃ s : SpeakerClassifier F,
    init load_extractor super_init path n false kwargs = Returned s
    ∧ cluster s = false
    ∧ classifier s = None
    ∧ speaker_labels s = ∅
    ∧ ivectors s = ∅
    ∧ expected_num_speakers s = n
    ∧ ∀ w : World F, self w = s →
        (cluster_utterances w).2
          = Raised (NotImplementedError diarization_message)
        ∧ ivectors (self (cluster_utterances w).1) = ∅.
Proof.
  intros Hload Hsuper. unfold init. rewrite Hload, Hsuper.
  eexists. split; [reflexivity|]. simpl.
  do 5 (split; [reflexivity|]).
  intros w Hself. split; [reflexivity|]. simpl. by rewrite Hself.
Qed.

End Construction.

(** ** [setup] *)

Section Setup.

Context {F : Type}.
Variable check_previous_run : M F bool.
Variable load_corpus : M F unit.
Variable export_model : string → M F unit.
Variable extract_ivectors : M F unit.
Variable log_kaldi_errors : list string → M F unit.
Variable update_log_file : list string → M F unit.

(** When the marker is there once the previous run has been checked,
    [setup] logs one line and returns. *)
Lemma setup_skips (w w1 : World F) (clean : bool) :
  check_previous_run w = (w1, Returned clean) →
  fs_exists (done_path w1) (disk w1) = true →
  setup check_previous_run load_corpus export_model extract_ivectors
        log_kaldi_errors update_log_file w
  = (add_log INFO done_message w1, Returned tt).
Proof.
  intros Hcheck Hdone. unfold setup.
  rewrite (bind_returned _ _ _ _ _ Hcheck).
  unfold bind, get_self, os_path_exists. simpl.
  unfold done_path in Hdone. rewrite Hdone. reflexivity.
Qed.

(** C8.  If the completion marker [done] exists in the working directory
    when [setup] is called, and the check of the previous run (which lives
    in a base class) only writes to the log, then [setup] returns normally;
    the object, the database and the disk are unchanged (the log directory
    is not created), the log gains the line that classification is already
    done, and the result does not depend on the corpus loader, the model
    export or the ivector extraction: none of them runs. *)
Theorem setup_done_marker_skips (w w1 : World F) (clean : bool) :
  check_previous_run w = (w1, Returned clean) →
  self w1 = self w → database w1 = database w → disk w1 = disk w →
  fs_exists (done_path w) (disk w) = true →
  ∃ w',
    setup check_previous_run load_corpus export_model extract_ivectors
          log_kaldi_errors update_log_file w = (w', Returned tt)
    ∧ self w' = self w
    ∧ database w' = database w
    ∧ disk w' = disk w
    ∧ logged w' = (logged w1 ++ [(INFO, done_message)])%list
    ∧ ∀ load_corpus' export_model' extract_ivectors',
        setup check_previous_run load_corpus' export_model' extract_ivectors'
              log_kaldi_errors update_log_file w = (w', Returned tt).
Proof.
  intros Hcheck Hself Hdb Hdisk Hdone.
  assert (Hdone1 : fs_exists (done_path w1) (disk w1) = true).
  { unfold done_path. by rewrite Hself, Hdisk. }
  exists (add_log INFO done_message w1). split.
  { by apply setup_skips with clean. }
  repeat split; simpl; try done.
  intros lc em ei.
  unfold setup.
  rewrite (bind_returned _ _ _ _ _ Hcheck).
  unfold bind, get_self, os_path_exists. simpl.
  unfold done_path in Hdone1. rewrite Hdone1. reflexivity.
Qed.

End Setup.

(** ** [load_ivectors] *)

Section Loading.

Context {F : Type}.
Variable float_of_string : string → option F.
Variable extract_ivectors_arguments :
  SpeakerClassifier F → list ExtractIvectorsArguments.
Variable load_scp : string → list (string * list string).

Local Abbreviation floats := (floats float_of_string).
Local Abbreviation load_entry := (load_entry float_of_string).
Local Abbreviation load_ivectors :=
  (load_ivectors float_of_string extract_ivectors_arguments load_scp).
Local Abbreviation scp_items := (scp_items extract_ivectors_arguments load_scp).
Local Abbreviation parseable := (parseable float_of_string).
Local Abbreviation first_bad_component := (first_bad_component float_of_string).
Local Abbreviation first_unparseable := (first_unparseable float_of_string).

Lemma dict_get_app {V} (d1 d2 : list (string * V)) k :
  dict_get (d1 ++ d2) k
  = match dict_get d1 k with Some v => Some v | None => dict_get d2 k end.
Proof.
  induction d1 as [|[k' v] d1 IH]; simpl; [done|].
  by destruct (decide (k' = k)).
Qed.

(** The list comprehension succeeds exactly on parseable components, and
    then converts them one by one. *)
Lemma floats_parseable (ivector : list string) :
  Forall parseable ivector →
  ∃ v, floats ivector = Returned v
       ∧ Forall2 (λ x y, float_of_string x = Some y) ivector v.
Proof.
  induction 1 as [|x rest [y Hy] _ [v [Hv Hall]]]; simpl.
  - by exists [].
  - rewrite Hy, Hv. exists (y :: v). split; [done|]. by constructor.
Qed.

Lemma floats_outcome (ivector : list string) :
  match first_bad_component ivector with
  | Some x => floats ivector = Raised (float_error x)
  | None => ∃ v, floats ivector = Returned v
  end.
Proof.
  induction ivector as [|x rest IH]; simpl.
  - by exists [].
  - destruct (float_of_string x) as [y|]; [|done].
    destruct (first_bad_component rest) as [bad|].
    + by rewrite IH.
    + destruct IH as [v ->]. by eexists.
Qed.

Lemma first_bad_component_spec (ivector : list string) (x : string) :
  first_bad_component ivector = Some x →
  x ∈ ivector ∧ float_of_string x = None.
Proof.
  induction ivector as [|y rest IH]; simpl; [done|].
  destruct (float_of_string y) eqn:Hy.
  - intros H. destruct (IH H). split; [by right | done].
  - intros [= ->]. split; [by left | done].
Qed.

Lemma first_bad_component_none (ivector : list string) :
  first_bad_component ivector = None ↔ Forall parseable ivector.
Proof.
  induction ivector as [|y rest IH]; simpl.
  - split; [constructor | done].
  - unfold parseable at 1.
    destruct (float_of_string y) eqn:Hy.
    + rewrite IH. split.
      * intros. constructor; [by rewrite Hy | done].
      * by inversion 1.
    + split; [done|]. inversion 1 as [|? ? [? Hs]]; simplify_eq.
Qed.

Lemma first_unparseable_spec (items : list (string * list string)) x :
  first_unparseable items = Some x →
  ∃ utt ivector, (utt, ivector) ∈ items ∧ x ∈ ivector
                 ∧ float_of_string x = None.
Proof.
  induction items as [|[utt ivector] rest IH]; simpl; [done|].
  destruct (first_bad_component ivector) as [bad|] eqn:Hbad.
  - intros [= ->]. apply first_bad_component_spec in Hbad as [? ?].
    exists utt, ivector. split; [by left | done].
  - intros H. destruct (IH H) as (u & iv & ? & ? & ?).
    exists u, iv. split; [by right | done].
Qed.

Lemma first_unparseable_none (items : list (string * list string)) :
  first_unparseable items = None
  ↔ Forall (λ e, Forall parseable e.2) items.
Proof.
  induction items as [|[utt ivector] rest IH]; simpl.
  - split; [constructor | done].
  - destruct (first_bad_component ivector) as [bad|] eqn:Hbad.
    + split; [done|]. inversion 1 as [|? ? Hh]; simplify_eq. simpl in Hh.
      apply first_bad_component_none in Hh. congruence.
    + rewrite IH. apply first_bad_component_none in Hbad. split.
      * intros. by constructor.
      * by inversion 1.
Qed.

Lemma load_entry_run (utt : string) (ivector : list string) (w : World F) :
  load_entry (utt, ivector) w
  = match floats ivector with
    | Returned v =>
        (replace_self
           (set_ivectors (<[utt := v]> (ivectors (self w))) (self w)) w,
         Returned tt)
    | Raised e => (w, Raised e)
    end.
Proof.
  unfold load_entry, bind, lift.
  by destruct (floats ivector).
Qed.

Lemma replace_self_same (w : World F) :
  replace_self (set_ivectors (ivectors (self w)) (self w)) w = w.
Proof. by destruct w as [[] ? ? ?]. Qed.

(** The loop over the lines: either every line is stored, the last
    occurrence of an identifier winning, or the loop stops at the first
    component that [float] rejects. *)
Lemma load_entries_outcome (items : list (string * list string))
    (w : World F) :
  ∃ m,
    for_each items load_entry w
    = (replace_self (set_ivectors m (self w)) w,
       match first_unparseable items with
       | Some x => Raised (float_error x)
       | None => Returned tt
       end)
    ∧ (first_unparseable items = None →
       dom m = list_to_set items.*1 ∪ dom (ivectors (self w))
       ∧ ∀ utt,
           match dict_get (reverse items) utt with
           | Some ivector =>
               ∃ v, m !! utt = Some v
                    ∧ Forall2 (λ x y, float_of_string x = Some y) ivector v
           | None => m !! utt = ivectors (self w) !! utt
           end).
Proof.
  revert w. induction items as [|[utt ivector] rest IH]; intros w.
  - exists (ivectors (self w)). split.
    + simpl. unfold ret. by rewrite replace_self_same.
    + intros _. split; [|intros utt; reflexivity].
      simpl. by rewrite (left_id_L ∅ (∪)).
  - cbn [for_each first_unparseable].
    pose proof (floats_outcome ivector) as Hfl.
    destruct (first_bad_component ivector) as [bad|] eqn:Hbad.
    + exists (ivectors (self w)). split; [|done].
      unfold bind. rewrite load_entry_run, Hfl.
      by rewrite replace_self_same.
    + destruct Hfl as [v Hv].
      set (w1 := replace_self
                   (set_ivectors (<[utt := v]> (ivectors (self w))) (self w)) w).
      destruct (IH w1) as [m [Hrun Hok]]. exists m. split.
      * unfold bind. rewrite load_entry_run, Hv. fold w1.
        rewrite Hrun. reflexivity.
      * intros Hnone. destruct (Hok Hnone) as [Hdom Hlook]. split.
        { rewrite Hdom. simpl. rewrite dom_insert_L.
          rewrite (assoc_L (∪)). f_equal. apply (comm_L (∪)). }
        intros k. specialize (Hlook k). rewrite reverse_cons, dict_get_app.
        destruct (dict_get (reverse rest) k) as [iv|]; [done|].
        simpl in *. destruct (decide (utt = k)) as [->|Hne].
        -- exists v. rewrite Hlook, lookup_insert_eq. split; [done|].
           apply first_bad_component_none in Hbad.
           destruct (floats_parseable _ Hbad) as [v' [Hv' Hall]].
           congruence.
        -- by rewrite Hlook, lookup_insert_ne.
Qed.

(** [load_ivectors] empties the store and then runs the loop over all the
    lines of all the files. *)
Lemma load_ivectors_unfold (w : World F) :
  load_ivectors w
  = for_each (scp_items (self w)) load_entry
      (replace_self (set_ivectors ∅ (self w)) w).
Proof.
  unfold load_ivectors, scp_items.
  unfold bind at 1. unfold with_self at 1. simpl.
  unfold bind at 1. unfold get_self at 1. simpl.
  apply (for_each_nested (λ a, load_scp (ivectors_path a))).
Qed.

(** What the store held before the call is forgotten. *)
Lemma load_ivectors_forgets (prior : gmap string (list F)) (w : World F) :
  load_ivectors (replace_self (set_ivectors prior (self w)) w)
  = load_ivectors w.
Proof. rewrite !load_ivectors_unfold. reflexivity. Qed.



End Loading.

(** ** Computations that only write files *)

Section WritesOnly.

Context {F : Type}.

Lemma writes_only_lift {A} (r : outcome A) : writes_only (F:=F) (lift r).
Proof.
  intros s db. exists ∅, r. intros w Hs Hdb. exists w.
  by rewrite (left_id_L ∅ (∪)).
Qed.

Lemma writes_only_ret {A} (a : A) : writes_only (F:=F) (ret a).
Proof. apply (writes_only_lift (Returned a)). Qed.

Lemma writes_only_raise {A} (e : exn) : writes_only (F:=F) (raise (A:=A) e).
Proof. apply (writes_only_lift (Raised e)). Qed.

Lemma writes_only_log lvl msg : writes_only (F:=F) (log lvl msg).
Proof.
  intros s db. exists ∅, (Returned tt). intros w Hs Hdb.
  eexists. split; [reflexivity|]. simpl. by rewrite (left_id_L ∅ (∪)).
Qed.

Lemma writes_only_get_self : writes_only (F:=F) get_self.
Proof.
  intros s db. exists ∅, (Returned s). intros w Hs Hdb. exists w.
  unfold get_self. by rewrite Hs, (left_id_L ∅ (∪)).
Qed.

Lemma writes_only_put ev p c : writes_only (F:=F) (with_disk (fs_put ev p c)).
Proof.
  intros s db. exists {[ p := c ]}, (Returned tt). intros w Hs Hdb.
  eexists. split; [reflexivity|]. simpl.
  by rewrite insert_union_singleton_l.
Qed.

Lemma writes_only_makedirs p : writes_only (F:=F) (os_makedirs p).
Proof.
  intros s db. exists ∅, (Returned tt). intros w Hs Hdb.
  eexists. split; [reflexivity|]. simpl. by rewrite (left_id_L ∅ (∪)).
Qed.

Lemma writes_only_bind {A B} (c : M F A) (k : A → M F B) :
  writes_only c → (∀ a, writes_only (k a)) → writes_only (bind c k).
Proof.
  intros Hc Hk s db. destruct (Hc s db) as (L1 & [a|e] & H1).
  - destruct (Hk a s db) as (L2 & r2 & H2). exists (L2 ∪ L1), r2.
    intros w Hs Hdb.
    destruct (H1 w Hs Hdb) as (w1 & E1 & Hs1 & Hdb1 & Hf1).
    destruct (H2 w1 Hs1 Hdb1) as (w2 & E2 & Hs2 & Hdb2 & Hf2).
    exists w2. unfold bind. rewrite E1, E2. repeat split; try done.
    by rewrite Hf2, Hf1, (assoc_L (∪)).
  - exists L1, (Raised e). intros w Hs Hdb.
    destruct (H1 w Hs Hdb) as (w1 & E1 & ?). exists w1.
    unfold bind. by rewrite E1.
Qed.

Lemma writes_only_for_each {A} (l : list A) (body : A → M F unit) :
  (∀ x, writes_only (body x)) → writes_only (for_each l body).
Proof.
  intros Hbody. induction l as [|x l IH]; simpl.
  - apply writes_only_ret.
  - apply writes_only_bind; [apply Hbody | intros _; apply IH].
Qed.

(** Running such a computation a second time, on the world the first run
    left, gives the same outcome and leaves every file as the first run
    wrote it. *)
Lemma writes_only_idempotent {A} (c : M F A) (w : World F) :
  writes_only c →
  (c (c w).1).2 = (c w).2
  ∧ files (disk (c (c w).1).1) = files (disk (c w).1).
Proof.
  intros Hc. destruct (Hc (self w) (database w)) as (L & r & H).
  destruct (H w eq_refl eq_refl) as (w1 & E1 & Hs1 & Hdb1 & Hf1).
  destruct (H w1 Hs1 Hdb1) as (w2 & E2 & Hs2 & Hdb2 & Hf2).
  rewrite E1. simpl. rewrite E2. simpl. split; [done|].
  by rewrite Hf2, Hf1, (assoc_L (∪)), (idemp_L (∪)).
Qed.

(** Two runs from worlds that hold the same object and database give the
    same outcome, and the same files when they started from the same
    files. *)
Lemma writes_only_same_files {A} (c : M F A) (w v : World F) :
  writes_only c →
  self w = self v → database w = database v →
  files (disk w) = files (disk v) →
  (c w).2 = (c v).2 ∧ files (disk (c w).1) = files (disk (c v).1).
Proof.
  intros Hc Hs Hdb Hf. destruct (Hc (self w) (database w)) as (L & r & H).
  destruct (H w eq_refl eq_refl) as (w1 & E1 & _ & _ & Hf1).
  destruct (H v (eq_sym Hs) (eq_sym Hdb)) as (v1 & E2 & _ & _ & Hf2).
  rewrite E1, E2. simpl. split; [done|]. by rewrite Hf1, Hf2, Hf.
Qed.

End WritesOnly.

Create HintDb writes discriminated.
#[global] Hint Resolve writes_only_ret writes_only_raise writes_only_lift
  writes_only_log writes_only_get_self writes_only_put writes_only_makedirs
  : writes.

(** ** Gap filling *)

Lemma fill_blanks_covers (lo hi : Z) (entries : list Interval) :
  chronological lo hi entries → covers lo hi (fill_blanks lo hi entries).
Proof.
  revert lo. induction entries as [|e rest IH]; intros lo; simpl.
  - intros Hle. destruct (Z.ltb_spec lo hi); simpl; lia.
  - intros (Hlo & Hse & Hrest). destruct (Z.ltb_spec lo (tg_start e)); simpl.
    + repeat split; try lia. by apply IH.
    + repeat split; try lia. by apply IH.
Qed.

Lemma fill_blanks_sublist (lo hi : Z) (entries : list Interval) :
  entries `sublist_of` fill_blanks lo hi entries.
Proof.
  revert lo. induction entries as [|e rest IH]; intros lo; simpl.
  - apply sublist_nil_l.
  - apply sublist_inserts_l. by apply sublist_skip.
Qed.

Lemma fill_blanks_labels (lo hi : Z) (entries : list Interval) (e : Interval) :
  e ∈ fill_blanks lo hi entries → e ∈ entries ∨ tg_label e = "".
Proof.
  revert lo. induction entries as [|x rest IH]; intros lo; simpl.
  - destruct (lo <? hi); [|by inversion 1].
    intros ->%list_elem_of_singleton. by right.
  - rewrite elem_of_app, elem_of_cons. intros [Hblank|[->|Hrest]].
    + destruct (lo <? tg_start x); [|by inversion Hblank].
      apply list_elem_of_singleton in Hblank as ->. by right.
    + left. by left.
    + destruct (IH _ Hrest); [left; by right | by right].
Qed.

(** ** [export_files] *)

Section Exporter.

Context {F : Type}.
Variable construct_output_path :
  string → string → string → TextFileType → string.
Variable to_tg_interval : CtmInterval → Interval.

Local Abbreviation export_lab := (export_lab (F:=F)).
Local Abbreviation export_textgrid := (export_textgrid (F:=F) to_tg_interval).
Local Abbreviation export_file :=
  (export_file (F:=F) construct_output_path to_tg_interval).
Local Abbreviation export_files :=
  (export_files (F:=F) construct_output_path to_tg_interval).
Local Abbreviation output_path_of := (output_path_of construct_output_path).
Local Abbreviation speaker_tier := (speaker_tier to_tg_interval).
Local Abbreviation tier_of_speaker := (tier_of_speaker to_tg_interval).

Ltac writes :=
  repeat first
    [ solve [eauto with writes]
    | apply writes_only_bind
    | apply writes_only_for_each
    | match goal with
      | |- ∀ _, _ => intro
      | |- writes_only (if ?b then _ else _) => destruct b
      | |- writes_only (match ?x with _ => _ end) => destruct x
      end ].

Lemma export_file_writes_only (file : File) : writes_only (export_file file).
Proof.
  unfold export_file, export_lab,
    export_textgrid, mfa_open_w, file_write, tg_save, log_debug.
  writes.
Qed.

(** [export_files] creates the chosen directory and then runs the loop over
    the files of the corpus. *)
Lemma export_files_unfold (output_directory : string) (w : World F) :
  export_files output_directory w
  = for_each (database w) export_file
      (replace_disk
         (fs_makedirs (chosen_directory output_directory w) (disk w)) w).
Proof. reflexivity. Qed.

Lemma export_files_writes_only (output_directory : string) :
  writes_only (export_files output_directory).
Proof.
  intros s db.
  destruct (writes_only_for_each db export_file export_file_writes_only s db)
    as (L & r & H).
  exists L, r. intros w Hs Hdb. rewrite export_files_unfold, Hdb.
  destruct (H (replace_disk
                 (fs_makedirs (chosen_directory output_directory w) (disk w))
                 w) Hs Hdb) as (w' & Hrun & ? & ? & Hfiles).
  by exists w'.
Qed.

(** C7.  Export is idempotent.  Running [export_files] a second time with
    the same output directory, on the world that the first run left behind
    (the same object, the same files of the corpus and their tiers), gives
    the same outcome and leaves the same files with the same contents at
    the same paths: every file is rewritten with what the first run
    wrote. *)
Theorem export_files_idempotent (output_directory : string) (w : World F) :
  (export_files output_directory (export_files output_directory w).1).2
  = (export_files output_directory w).2
  ∧ files (disk (export_files output_directory
                   (export_files output_directory w).1).1)
    = files (disk (export_files output_directory w).1)
  ∧ dom (files (disk (export_files output_directory
                   (export_files output_directory w).1).1))
    = dom (files (disk (export_files output_directory w).1)).
Proof.
  destruct (writes_only_idempotent (export_files output_directory) w
              (export_files_writes_only output_directory)) as [Hr Hf].
  by rewrite Hr, Hf.
Qed.

(** The directory passed to [export_files] decides which directory is
    created and nothing else: the outcome and the files written are the
    same for every requested directory. *)
Lemma export_files_ignores_directory (dir1 dir2 : string) (w : World F) :
  (export_files dir1 w).2 = (export_files dir2 w).2
  ∧ files (disk (export_files dir1 w).1)
    = files (disk (export_files dir2 w).1).
Proof.
  rewrite !export_files_unfold.
  apply writes_only_same_files; try done.
  apply writes_only_for_each, export_file_writes_only.
Qed.

(** *** The single-label branch *)

Lemma export_lab_run (p : string) (data : list (string * list CtmInterval))
    (w : World F) :
  Forall (λ intervals, intervals ≠ []) (dict_values data) →
  export_lab p data w
  = (replace_disk
       {| dirs := dirs (disk w);
          files := match last (dict_values data) with
                   | Some (first :: _) =>
                       <[ p := Text (label first) ]> (files (disk w))
                   | _ => files (disk w)
                   end;
          journal := journal (disk w) ++ lab_events p (dict_values data) |}
       w,
     Returned tt).
Proof.
  unfold export_lab. generalize (dict_values data) as tiers.
  intros tiers. revert w.
  induction tiers as [|tier rest IH]; intros w Hne.
  - simpl. unfold ret. rewrite app_nil_r.
    by destruct w as [? ? [] ?].
  - inversion Hne as [|? ? Htier Hrest]; subst.
    destruct tier as [|first more]; [done|].
    cbn [for_each]. unfold bind, mfa_open_w, file_write, with_disk.
    cbn -[for_each last]. rewrite IH by done.
    unfold replace_disk. cbn -[last lab_events].
    f_equal. f_equal. f_equal.
    + destruct rest as [|tier2 rest']; [simpl; by rewrite insert_insert_eq|].
      rewrite last_cons_cons.
      destruct (last (tier2 :: rest')) as [[|f ?]|] eqn:Hlast.
      * apply last_Some_elem_of in Hlast.
        rewrite Forall_forall in Hrest. by apply Hrest in Hlast.
      * by rewrite !insert_insert_eq.
      * by apply last_None in Hlast.
    + by rewrite <- !app_assoc.
Qed.


(** When a tier without intervals comes first among the tiers of a label
    file, the output file has been truncated by the time the indexing
    fails, and the error escapes. *)
Lemma export_lab_empty_tier (p : string) (k : string)
    (rest : list (string * list CtmInterval)) (w : World F) :
  export_lab p ((k, []) :: rest) w
  = (replace_disk (fs_put (OpenW p) p (Text "") (disk w)) w,
     Raised index_error).
Proof. reflexivity. Qed.

(** *** The multi-tier branch *)

Lemma add_speaker_tiers_run (data : list (string * list CtmInterval))
    (duration : Z) (spks : list SpeakerOrdering) (tg : Textgrid) :
  (∀ sp, sp ∈ spks → is_Some (dict_get data (name (speaker sp)))) →
  add_speaker_tiers to_tg_interval data duration spks tg
  = Returned {| tierList :=
                  tierList tg ++ map (speaker_tier data duration) spks;
                minTimestamp := minTimestamp tg;
                maxTimestamp := maxTimestamp tg |}.
Proof.
  revert tg. induction spks as [|sp spks IH]; intros tg Hall; simpl.
  - rewrite app_nil_r. by destruct tg.
  - destruct (Hall sp) as [intervals Hget]; [by left|].
    rewrite Hget, IH by (intros; apply Hall; by right).
    simpl. do 2 f_equal. rewrite <- app_assoc. simpl.
    unfold speaker_tier at 2. by rewrite Hget.
Qed.

(** A speaker without an entry in the transcription data stops the loop
    with a [KeyError]. *)
Lemma add_speaker_tiers_missing (data : list (string * list CtmInterval))
    (duration : Z) (sp : SpeakerOrdering) (spks : list SpeakerOrdering)
    (tg : Textgrid) :
  dict_get data (name (speaker sp)) = None →
  add_speaker_tiers to_tg_interval data duration (sp :: spks) tg
  = Raised (KeyError (name (speaker sp))).
Proof. intros H. simpl. by rewrite H. Qed.


End Exporter.

(** * The properties on concrete corpora *)

Section Examples.

Import Sample.

Ltac evaluate :=
  cbv zeta;
  repeat match goal with |- _ ∧ _ => split end;
  vm_compute; reflexivity.

(** ** Loading *)


Example load_ivectors_sample :
  ivectors (self (load load_scp (world [] empty_disk)).1)
  = {[ "utt1" := [1; 2]; "utt2" := [3; 4]; "utt3" := [5; 6] ]}.
Proof. evaluate. Qed.


(** ** Construction and setup *)

(** C9 as it was stated does not hold: constructing the classifier in
    classification mode, with no reference speaker model anywhere, returns
    an object. *)
Lemma init_classification_mode_returns :
  construct false
  = Returned {| base := worker;
                ivector_extractor :=
                  {| source_path := "/models/ivector.zip"; parameters := ∅ |};
                classifier := None; speaker_labels := ∅; ivectors := ∅;
                expected_num_speakers := 0; cluster := false |}
  ∧ is_raised (construct false) = false.
Proof. evaluate. Qed.

Lemma init_classification_mode_succeeds_witness :
  ∃ s : SpeakerClassifier Z,
    construct false = Returned s ∧ cluster s = false ∧ classifier s = None.
Proof.
  destruct (init_classification_mode_succeeds (F:=Z) load_extractor super_init
              "/models/ivector.zip" 0 ∅
              {| source_path := "/models/ivector.zip"; parameters := ∅ |}
              worker eq_refl eq_refl)
    as (s & Hinit & Hcluster & Hclassifier & _).
  exists s. split; [exact Hinit|]. split; [exact Hcluster | exact Hclassifier].
Defined.

(** C8 where the marker exists: nothing but the log changes, and the
    collaborators, which would each log a line, did not run. *)
Lemma setup_done_marker_skips_witness :
  ∃ w',
    run_setup (world [] disk_with_marker) = (w', Returned tt)
    ∧ self w' = classifier_object
    ∧ disk w' = disk_with_marker
    ∧ logged w' = [(INFO, done_message)].
Proof.
  destruct (setup_done_marker_skips check_previous_run load_corpus
              export_model extract_ivectors log_kaldi_errors update_log_file
              (world [] disk_with_marker) (world [] disk_with_marker) true)
    as (w' & Hrun & Hself & _ & Hdisk & Hlog & _);
    try reflexivity.
  exists w'. split; [exact Hrun|]. split; [exact Hself|].
  split; [exact Hdisk | exact Hlog].
Defined.

(** Without the marker, [setup] creates the log directory and runs the
    three collaborators. *)
Example setup_without_marker :
  logged (run_setup (world [] empty_disk)).1
  = [(INFO, "load_corpus"); (INFO, "export_model"); (INFO, "extract_ivectors")]
  ∧ journal (disk (run_setup (world [] empty_disk)).1)
    = [Makedirs "/tmp/mfa/corpus/speaker_classification/log"].
Proof. evaluate. Qed.

(** ** Export *)

(** C2 at an input where it does not hold.  Overwriting is off and the
    requested directory [/data/out] exists.  The export returns and creates
    the [transcriptions] directory under the working directory, but the one
    annotation file is written under [self.output_directory], the parent of
    the working directory: nothing is written beneath the directory the
    output was redirected to. *)
Theorem export_files_redirect_unused :
  let w := world [recording] disk_with_output in
  let r := export "/data/out" w in
  overwrite (base (self w)) = false
  ∧ fs_exists "/data/out" (disk w) = true
  ∧ chosen_directory "/data/out" w = redirected_directory
  ∧ r.2 = Returned tt
  ∧ dirs (disk r.1) = {[ redirected_directory; "/data/out" ]}
  ∧ dom (files (disk r.1)) = {[ "/tmp/mfa/corpus/rec1.TextGrid" ]}
  ∧ String.prefix redirected_directory "/tmp/mfa/corpus/rec1.TextGrid" = false
  ∧ files (disk r.1)
      !! output_path_in "rec1" "" redirected_directory textgrid_tag = None.
Proof. evaluate. Qed.




(** The container written for that recording: the gaps after the second
    interval of A and before the interval of B are filled. *)
Example export_multi_tier_sample :
  (doc_tiers <$>
     (match files (disk (export_one recording
                           (world [recording] empty_disk)).1)
              !! "/tmp/mfa/corpus/rec1.TextGrid" with
      | Some (Grid doc) => Some doc
      | _ => None
      end))
  = Some [("A", [triple (ctm 0 2 "text1"); triple (ctm 2 5 "text2");
                 triple (ctm 5 9 "")]);
          ("B", [triple (ctm 0 6 ""); triple (ctm 6 9 "text3")])].
Proof. evaluate. Qed.

(** A speaker of the file without a tier in the transcription data stops
    the multi-tier export with a [KeyError]; no file is written. *)
Example export_multi_tier_silent_speaker :
  let r := export_one recording_with_silent_speaker
             (world [recording_with_silent_speaker] empty_disk) in
  r.2 = Raised (KeyError "B") ∧ files (disk r.1) = ∅.
Proof. evaluate. Qed.

(** C7 on that recording: the second export leaves the files of the first. *)
Example export_files_idempotent_sample :
  let w1 := (export "/data/out" (world [recording; label_file] empty_disk)).1 in
  let w2 := (export "/data/out" w1).1 in
  files (disk w2) = files (disk w1)
  ∧ dirs (disk w1) = {[ "/data/out" ]}
  ∧ dirs (disk w2) = {[ redirected_directory; "/data/out" ]}.
Proof. evaluate. Qed.

End Examples.

(** * Further properties *)

(** ** [parse_parameters] *)

Section ParseParametersProperties.

Context {V Namespace UnknownArgs : Type}.
Variable load_configuration : string → list (string * PyValue V).
Variable nullable_fields : list string.
Variable parse_args : Namespace → UnknownArgs → gmap string (PyValue V).
Variable update_from_opaque :
  V → gmap string (PyValue V) → outcome (gmap string (PyValue V)).

Local Abbreviation parse_items :=
  (parse_items nullable_fields update_from_opaque).
Local Abbreviation parse_parameters :=
  (parse_parameters load_configuration nullable_fields parse_args
     update_from_opaque).

(** X1.  Whenever [parse_parameters] returns, every parameter given on the
    command line is in the result with the value of the command line,
    whatever the configuration file says; and a parameter that the command
    line does not give is absent unless the configuration file was read. *)
Theorem parse_parameters_command_line_wins
    (d : FileSystem) (config_path : option string)
    (args : Namespace) (unknown_args : UnknownArgs)
    (m : gmap string (PyValue V)) :
  parse_parameters d config_path args unknown_args = Returned m →
  (∀ k v, parse_args args unknown_args !! k = Some v → m !! k = Some v)
  ∧ (∀ k, parse_args args unknown_args !! k = None →
          is_Some (m !! k) →
          ∃ p, config_path = Some p ∧ p ≠ "" ∧ fs_exists p d = true).
Proof.
  unfold parse_parameters. intros Hrun. split.
  - intros k v Hk.
    destruct config_path as [p|];
      [destruct (negb _ && fs_exists p d);
       [destruct (parse_items ∅ (load_configuration p))|]|];
      simplify_eq; by apply lookup_union_Some_l.
  - intros k Hk [v Hv]. destruct config_path as [p|].
    + destruct (negb (String.length p =? 0)%nat && fs_exists p d) eqn:Hread.
      * apply andb_true_iff in Hread as [Hlen Hex]. exists p.
        split; [done|]. split; [|done]. intros ->. done.
      * simplify_eq. rewrite lookup_union_r, lookup_empty in Hv; done.
    + simplify_eq. rewrite lookup_union_r, lookup_empty in Hv; done.
Qed.

(** X2.  Without a configuration path, with an empty one, or with a path
    at which nothing exists, [parse_parameters] returns exactly the
    parameters of the command line: a missing configuration file is passed
    over in silence and is never loaded. *)
Theorem parse_parameters_without_config
    (d : FileSystem) (args : Namespace) (unknown_args : UnknownArgs) :
  parse_parameters d None args unknown_args
  = Returned (parse_args args unknown_args)
  ∧ parse_parameters d (Some "") args unknown_args
    = Returned (parse_args args unknown_args)
  ∧ ∀ p, fs_exists p d = false →
         parse_parameters d (Some p) args unknown_args
         = Returned (parse_args args unknown_args).
Proof.
  unfold parse_parameters. split; [|split].
  - simpl. by rewrite (right_id_L ∅ (∪)).
  - simpl. by rewrite (right_id_L ∅ (∪)).
  - intros p ->. rewrite andb_false_r. by rewrite (right_id_L ∅ (∪)).
Qed.

Lemma rename_type_lookup (section : gmap string (PyValue V)) (k : string) :
  rename_type section !! k
  = if decide (k = "type") then
      match section !! "type" with Some _ => None | None => None end
    else if decide (k = "feature_type") then
      match section !! "type" with
      | Some t => Some t
      | None => section !! "feature_type"
      end
    else section !! k.
Proof.
  unfold rename_type. destruct (section !! "type") as [t|] eqn:Ht.
  - destruct (decide (k = "type")) as [->|Hk].
    + by rewrite lookup_delete_eq.
    + rewrite lookup_delete_ne by done.
      destruct (decide (k = "feature_type")) as [->|Hk'].
      * by rewrite lookup_insert_eq.
      * by rewrite lookup_insert_ne.
  - destruct (decide (k = "type")) as [->|Hk]; [done|].
    by destruct (decide (k = "feature_type")) as [->|Hk'].
Qed.

(** X3.  For a configuration file that consists of a [features] section,
    the entries of the section become parameters of their own: the entry
    [type] is stored under [feature_type], replacing an entry of that name,
    and is never stored under [type]; every other entry keeps its key; the
    command line still wins. *)
Theorem parse_parameters_features_section
    (d : FileSystem) (p : string)
    (args : Namespace) (unknown_args : UnknownArgs)
    (section : gmap string (PyValue V)) :
  p ≠ "" → fs_exists p d = true →
  load_configuration p = [("features", PyDict section)] →
  ∃ m,
    parse_parameters d (Some p) args unknown_args = Returned m
    ∧ m !! "type" = parse_args args unknown_args !! "type"
    ∧ m !! "feature_type"
      = match parse_args args unknown_args !! "feature_type" with
        | Some v => Some v
        | None =>
            match section !! "type" with
            | Some t => Some t
            | None => section !! "feature_type"
            end
        end
    ∧ ∀ k, k ≠ "type" → k ≠ "feature_type" →
           m !! k = match parse_args args unknown_args !! k with
                    | Some v => Some v
                    | None => section !! k
                    end.
Proof.
  intros Hp Hex Hload. unfold parse_parameters.
  rewrite Hex, Hload. destruct p as [|c p']; [done|]. simpl.
  eexists. split; [reflexivity|].
  rewrite (right_id_L ∅ (∪)).
  split; [|split].
  - rewrite lookup_union, rename_type_lookup. simpl.
    destruct (parse_args args unknown_args !! "type");
      by destruct (section !! "type").
  - rewrite lookup_union, rename_type_lookup. simpl.
    destruct (parse_args args unknown_args !! "feature_type");
      destruct (section !! "type"); try done;
      by destruct (section !! "feature_type").
  - intros k Hk Hk'. rewrite lookup_union, rename_type_lookup.
    rewrite !decide_False by done.
    destruct (parse_args args unknown_args !! k); by destruct (section !! k).
Qed.

Lemma parse_items_settings (data : list (string * PyValue V))
    (g : gmap string (PyValue V)) :
  Forall (λ item, item.1 ≠ "features") data →
  ∃ m,
    parse_items g data = Returned m
    ∧ ∀ k,
        m !! k
        = match dict_get (reverse data) k with
          | Some v =>
              Some (if is_None v && bool_decide (k ∈ nullable_fields)
                    then PyEmptyList else v)
          | None => g !! k
          end.
Proof.
  revert g. induction data as [|[k0 v0] rest IH]; intros g Hall.
  - exists g. split; [done|]. intros k. done.
  - inversion Hall as [|? ? Hk0 Hrest]; subst. simpl in Hk0.
    cbn [parse_items parse_item].
    rewrite decide_False by done.
    destruct (IH (<[k0 := if is_None v0 && bool_decide (k0 ∈ nullable_fields)
                          then PyEmptyList else v0]> g) Hrest)
      as [m [Hrun Hlook]].
    exists m. split; [exact Hrun|]. intros k. rewrite Hlook.
    rewrite reverse_cons, dict_get_app.
    destruct (dict_get (reverse rest) k); [done|]. simpl.
    destruct (decide (k0 = k)) as [->|Hne].
    + by rewrite lookup_insert_eq.
    + by rewrite lookup_insert_ne.
Qed.

(** X4.  For a configuration file without a [features] section,
    [parse_parameters] never fails.  Each setting of the file is in the
    result under its key, the last one winning, unless the command line
    gives the key; and a setting of a nullable field that the file leaves
    at [None] is stored as an empty list, so that such a field is [None]
    in the result only when the command line says so. *)
Theorem parse_parameters_settings
    (d : FileSystem) (p : string)
    (args : Namespace) (unknown_args : UnknownArgs) :
  p ≠ "" → fs_exists p d = true →
  Forall (λ item, item.1 ≠ "features") (load_configuration p) →
  ∃ m,
    parse_parameters d (Some p) args unknown_args = Returned m
    ∧ (∀ k,
         m !! k
         = match parse_args args unknown_args !! k with
           | Some v => Some v
           | None =>
               match dict_get (reverse (load_configuration p)) k with
               | Some v =>
                   Some (if is_None v && bool_decide (k ∈ nullable_fields)
                         then PyEmptyList else v)
               | None => None
               end
           end)
    ∧ (∀ k, k ∈ nullable_fields → m !! k = Some PyNone →
            parse_args args unknown_args !! k = Some PyNone).
Proof.
  intros Hp Hex Hall. unfold parse_parameters.
  rewrite Hex. destruct p as [|c p']; [done|]. cbn [String.length Nat.eqb negb andb].
  destruct (parse_items_settings _ ∅ Hall) as [m [Hrun Hlook]].
  rewrite Hrun. eexists. split; [reflexivity|].
  assert (Hall_k : ∀ k,
    (parse_args args unknown_args ∪ m) !! k
    = match parse_args args unknown_args !! k with
      | Some v => Some v
      | None =>
          match dict_get (reverse (load_configuration (String c p'))) k with
          | Some v =>
              Some (if is_None v && bool_decide (k ∈ nullable_fields)
                    then PyEmptyList else v)
          | None => None
          end
      end).
  { intros k. rewrite lookup_union, Hlook.
    destruct (parse_args args unknown_args !! k);
      by destruct (dict_get _ k). }
  split; [exact Hall_k|].
  intros k Hk. rewrite Hall_k.
  destruct (parse_args args unknown_args !! k); [done|].
  destruct (dict_get _ k) as [v|]; [|done].
  rewrite bool_decide_true by done. rewrite andb_true_r.
  by destruct v.
Qed.

End ParseParametersProperties.

(** ** [__init__] *)

Section ConstructionProperties.

Context {F : Type}.
Variable load_extractor : string → outcome IvectorExtractorModel.
Variable super_init : gmap string string → outcome Worker.

(** X5.  The parameters stored in the extractor model take precedence over
    the keyword arguments of the caller: two calls whose keyword arguments
    differ only on keys that the model defines construct the same object,
    or fail alike. *)
Theorem init_model_parameters_win
    (path : string) (n : Z) (c : bool)
    (kwargs1 kwargs2 : gmap string string)
    (extractor : IvectorExtractorModel) :
  load_extractor path = Returned extractor →
  (∀ k, parameters extractor !! k = None → kwargs1 !! k = kwargs2 !! k) →
  init (F:=F) load_extractor super_init path n c kwargs1
  = init load_extractor super_init path n c kwargs2.
Proof.
  intros Hload Hagree. unfold init. rewrite Hload.
  assert (parameters extractor ∪ kwargs1 = parameters extractor ∪ kwargs2)
    as ->; [|done].
  apply map_eq. intros k. rewrite !lookup_union.
  destruct (parameters extractor !! k) as [v|] eqn:Hk.
  - by destruct (kwargs1 !! k), (kwargs2 !! k).
  - by rewrite (Hagree k Hk).
Qed.


End ConstructionProperties.

(** ** The paths under the working directory *)

Lemma string_app_assoc (a b c : string) : (a ++ b) ++ c = a ++ (b ++ c).
Proof.
  induction a as [|x a IH]; [done|].
  change (String x ((a ++ b) ++ c) = String x (a ++ (b ++ c))).
  by rewrite IH.
Qed.

Lemma string_prefix_app (a b : string) : String.prefix a (a ++ b) = true.
Proof.
  induction a as [|x a IH]; [by destruct b|].
  change (String.prefix (String x a) (String x (a ++ b)) = true).
  simpl. by destruct (Ascii.ascii_dec x x).
Qed.

(** Joining a relative name to a directory appends it, after a slash when
    the directory needs one. *)
Lemma os_path_join_relative (a b : string) :
  starts_with_slash b = false →
  os_path_join a b
  = (if (String.length a =? 0)%nat || ends_with_slash a
     then a else a ++ "/") ++ b.
Proof.
  intros Hb. unfold os_path_join. rewrite Hb.
  destruct ((String.length a =? 0)%nat || ends_with_slash a); [done|].
  by rewrite string_app_assoc.
Qed.

Lemma os_path_join_inj (a b1 b2 : string) :
  starts_with_slash b1 = false → starts_with_slash b2 = false →
  os_path_join a b1 = os_path_join a b2 → b1 = b2.
Proof.
  intros H1 H2. rewrite !os_path_join_relative by done.
  apply (inj (String.app _)).
Qed.

Lemma os_path_join_prefix (a b : string) :
  starts_with_slash b = false → String.prefix a (os_path_join a b) = true.
Proof.
  intros Hb. rewrite os_path_join_relative by done.
  destruct ((String.length a =? 0)%nat || ends_with_slash a).
  - apply string_prefix_app.
  - rewrite string_app_assoc. apply string_prefix_app.
Qed.

(** X7.  Whatever the working directory is, the three model files, the
    completion marker, the log directory and the directory that export
    falls back to are six different paths, and each of them lies under the
    working directory. *)
Theorem working_directory_paths {F : Type} (w : World F) :
  let wd := working_directory (base (self w)) in
  let paths := [ie_path (self w); model_path (self w); dubm_path (self w);
                done_path w; os_path_join wd "log";
                os_path_join wd "transcriptions"] in
  NoDup paths ∧ Forall (λ p, String.prefix wd p = true) paths.
Proof.
  intros wd paths.
  set (names := ["final.ie"; "final.mdl"; "final.dubm"; "done"; "log";
                 "transcriptions"]).
  assert (Hrel : Forall (λ b, starts_with_slash b = false) names).
  { by repeat constructor. }
  change paths with (os_path_join wd <$> names).
  split.
  - apply NoDup_fmap_2_strong.
    + intros b1 b2 H1 H2. rewrite Forall_forall in Hrel.
      apply os_path_join_inj; by apply Hrel.
    + apply (bool_decide_unpack _). by vm_compute.
  - apply Forall_fmap. eapply Forall_impl; [exact Hrel|].
    intros b Hb. by apply os_path_join_prefix.
Qed.

(** ** [setup] without the completion marker *)

Section SetupProperties.

Context {F : Type}.
Variable check_previous_run : M F bool.
Variable load_corpus : M F unit.
Variable export_model : string → M F unit.
Variable extract_ivectors : M F unit.
Variable log_kaldi_errors : list string → M F unit.
Variable update_log_file : list string → M F unit.

Local Abbreviation this_setup :=
  (setup check_previous_run load_corpus export_model extract_ivectors
         log_kaldi_errors update_log_file).
Local Abbreviation steps w :=
  (setup_steps load_corpus export_model extract_ivectors
     (working_directory (base (self w)))).

(** Without the marker, [setup] creates the log directory and runs the
    three steps under its handler. *)
Lemma setup_runs_steps (w w1 : World F) (clean : bool) :
  check_previous_run w = (w1, Returned clean) →
  fs_exists (done_path w1) (disk w1) = false →
  this_setup w
  = match steps w1 (with_log_directory w1) with
    | (w2, Returned tt) => (w2, Returned tt)
    | (w2, Raised (KaldiProcessingError error_logs)) =>
        bind (log_kaldi_errors error_logs)
          (λ _, bind (update_log_file error_logs)
                  (λ _, raise (KaldiProcessingError error_logs))) w2
    | (w2, Raised e) => (w2, Raised e)
    end.
Proof.
  intros Hcheck Hdone. unfold setup.
  rewrite (bind_returned _ _ _ _ _ Hcheck).
  unfold bind at 1, get_self at 1. unfold bind at 1, os_path_exists at 1.
  unfold done_path in Hdone. rewrite Hdone.
  unfold bind at 1, os_makedirs at 1, with_disk at 1.
  unfold try_except, setup_steps, with_log_directory, replace_disk.
  cbn [self disk database logged].
  destruct (bind load_corpus _ _) as [w2 [[]|e]]; [done|].
  by destruct e.
Qed.


(** X9.  The steps of [setup] run in order and stop at the first failure:
    when loading the corpus fails, the result is the same whatever the
    model export and the ivector extraction would do, and when the model
    export fails, whatever the extraction would do. *)
Theorem setup_stops_at_first_failure (w w1 : World F) (clean : bool) :
  check_previous_run w = (w1, Returned clean) →
  fs_exists (done_path w1) (disk w1) = false →
  (∀ w2 e,
     load_corpus (with_log_directory w1) = (w2, Raised e) →
     ∀ export_model' extract_ivectors',
       setup check_previous_run load_corpus export_model'
         extract_ivectors' log_kaldi_errors update_log_file w
       = this_setup w)
  ∧ (∀ w2 w3 e,
       load_corpus (with_log_directory w1) = (w2, Returned tt) →
       export_model (working_directory (base (self w1))) w2
       = (w3, Raised e) →
       ∀ extract_ivectors',
         setup check_previous_run load_corpus export_model
           extract_ivectors' log_kaldi_errors update_log_file w
         = this_setup w).
Proof.
  intros Hcheck Hdone. split.
  - intros w2 e Hload em ei.
    rewrite (setup_runs_steps _ _ _ Hcheck Hdone).
    unfold setup, bind, get_self, os_path_exists, try_except,
      os_makedirs, with_disk in *.
    rewrite Hcheck. unfold done_path in Hdone. rewrite Hdone.
    unfold setup_steps, bind, with_log_directory, replace_disk in *.
    cbn [self disk database logged] in *. rewrite Hload. by destruct e.
  - intros w2 w3 e Hload Hexport ei.
    rewrite (setup_runs_steps _ _ _ Hcheck Hdone).
    unfold setup, bind, get_self, os_path_exists, try_except,
      os_makedirs, with_disk in *.
    rewrite Hcheck. unfold done_path in Hdone. rewrite Hdone.
    unfold setup_steps, bind, with_log_directory, replace_disk in *.
    cbn [self disk database logged] in *. rewrite Hload, Hexport.
    by destruct e.
Qed.

End SetupProperties.

(** ** [load_ivectors], further *)

Section LoadingProperties.

Context {F : Type}.
Variable float_of_string : string → option F.
Variable extract_ivectors_arguments :
  SpeakerClassifier F → list ExtractIvectorsArguments.
Variable load_scp : string → list (string * list string).

Local Abbreviation load_entry := (load_entry float_of_string).
Local Abbreviation load_ivectors :=
  (load_ivectors float_of_string extract_ivectors_arguments load_scp).
Local Abbreviation scp_items := (scp_items extract_ivectors_arguments load_scp).
Local Abbreviation parseable := (parseable float_of_string).
Local Abbreviation first_bad_component :=
  (first_bad_component float_of_string).

(** Whatever happens, the world after [load_ivectors] is the world before
    with another store of ivectors. *)
Lemma load_ivectors_world (w : World F) :
  ∃ m, (load_ivectors w).1 = replace_self (set_ivectors m (self w)) w.
Proof.
  rewrite load_ivectors_unfold.
  destruct (load_entries_outcome float_of_string (scp_items (self w))
              (replace_self (set_ivectors ∅ (self w)) w))
    as [m [Hrun _]].
  exists m. by rewrite Hrun.
Qed.

(** X10.  [load_ivectors] changes the store of ivectors and nothing else,
    also when it fails: the database, the disk and the log are as before,
    and so is every other attribute of the object. *)
Theorem load_ivectors_frame (w : World F) :
  database (load_ivectors w).1 = database w
  ∧ disk (load_ivectors w).1 = disk w
  ∧ logged (load_ivectors w).1 = logged w
  ∧ base (self (load_ivectors w).1) = base (self w)
  ∧ ivector_extractor (self (load_ivectors w).1) = ivector_extractor (self w)
  ∧ classifier (self (load_ivectors w).1) = classifier (self w)
  ∧ speaker_labels (self (load_ivectors w).1) = speaker_labels (self w)
  ∧ expected_num_speakers (self (load_ivectors w).1)
    = expected_num_speakers (self w)
  ∧ cluster (self (load_ivectors w).1) = cluster (self w).
Proof.
  destruct (load_ivectors_world w) as [m ->]. by repeat split.
Qed.

(** X11.  Loading twice is loading once: a second call of [load_ivectors]
    on the world that the first call left gives the same world and the same
    outcome. *)
Theorem load_ivectors_idempotent (w : World F) :
  load_ivectors (load_ivectors w).1 = load_ivectors w.
Proof.
  destruct (load_ivectors_world w) as [m ->].
  apply load_ivectors_forgets.
Qed.


End LoadingProperties.

(** ** [export_files], further *)

Section ExporterProperties.

Context {F : Type}.
Variable construct_output_path :
  string → string → string → TextFileType → string.
Variable to_tg_interval : CtmInterval → Interval.

Local Abbreviation export_lab := (export_lab (F:=F)).
Local Abbreviation export_file :=
  (export_file (F:=F) construct_output_path to_tg_interval).
Local Abbreviation export_files :=
  (export_files (F:=F) construct_output_path to_tg_interval).
Local Abbreviation output_path_of := (output_path_of construct_output_path).
Local Abbreviation export_frame := (export_frame construct_output_path).

(** A loop keeps every relation between worlds that is reflexive and
    transitive and that each turn of its body keeps. *)
Lemma for_each_preserves {A} (R : World F → World F → Prop)
    (l : list A) (body : A → M F unit) :
  (∀ w, R w w) →
  (∀ w1 w2 w3, R w1 w2 → R w2 w3 → R w1 w3) →
  (∀ x w, x ∈ l → R w (body x w).1) →
  ∀ w, R w (for_each l body w).1.
Proof.
  intros Hrefl Htrans. induction l as [|x l IH]; intros Hbody w.
  - apply Hrefl.
  - cbn [for_each]. unfold bind.
    pose proof (Hbody x w (list_elem_of_here _ _)) as Hx.
    destruct (body x w) as [w1 [[]|e]]; simpl in *; [|done].
    eapply Htrans; [exact Hx|]. apply IH.
    intros y v Hy. apply Hbody. by right.
Qed.

(** The single-label loop changes the file at the output path and the
    journal, nothing else. *)
Lemma export_lab_frame (p : string) (data : list (string * list CtmInterval))
    (w : World F) :
  self (export_lab p data w).1 = self w
  ∧ database (export_lab p data w).1 = database w
  ∧ dirs (disk (export_lab p data w).1) = dirs (disk w)
  ∧ logged (export_lab p data w).1 = logged w
  ∧ ∀ q, q ≠ p →
         files (disk (export_lab p data w).1) !! q = files (disk w) !! q.
Proof.
  unfold export_lab.
  apply (for_each_preserves
    (λ w w', self w' = self w ∧ database w' = database w
             ∧ dirs (disk w') = dirs (disk w) ∧ logged w' = logged w
             ∧ ∀ q, q ≠ p → files (disk w') !! q = files (disk w) !! q)).
  - done.
  - intros w1 w2 w3 (? & ? & ? & ? & H12) (? & ? & ? & ? & H23).
    repeat split; try congruence.
    intros q Hq. by rewrite H23, H12.
  - intros intervals v _. destruct intervals as [|first more]; simpl.
    + repeat split; try done. intros q Hq. by rewrite lookup_insert_ne.
    + repeat split; try done. intros q Hq. by rewrite !lookup_insert_ne.
Qed.

Lemma export_file_frame (rows : list File) (file : File) (w : World F) :
  file ∈ rows → export_frame rows w (export_file file w).1.
Proof.
  intros Hrow. unfold export_file, bind, get_self.
  set (p := construct_output_path _ _ _ _).
  assert (Hlog : ∀ w0 : World F,
    (w0 = w ∧ (List.length (utterances file) =? 0)%nat = false)
    ∨ (w0 = add_log DEBUG
              ("Could not find any utterances for " ++ file_name file) w
       ∧ utterances file = []) →
    self w0 = self w ∧ database w0 = database w ∧ disk w0 = disk w
    ∧ ∃ added, logged w0 = (logged w ++ added)%list
        ∧ Forall (λ line, ∃ f, f ∈ rows ∧ utterances f = []
                               ∧ line = utterance_notice f) added).
  { intros w0 [[-> _]|[-> Hnone]].
    - repeat split. exists []. by rewrite app_nil_r.
    - repeat split. eexists. split; [reflexivity|].
      constructor; [|constructor]. by exists file. }
  assert (Hstep : ∀ (c : M F unit) (w0 : World F),
    (self w0 = self w ∧ database w0 = database w ∧ disk w0 = disk w
     ∧ ∃ added, logged w0 = (logged w ++ added)%list
         ∧ Forall (λ line, ∃ f, f ∈ rows ∧ utterances f = []
                                ∧ line = utterance_notice f) added) →
    (self (c w0).1 = self w0 ∧ database (c w0).1 = database w0
     ∧ dirs (disk (c w0).1) = dirs (disk w0)
     ∧ logged (c w0).1 = logged w0
     ∧ ∀ q, q ≠ p → files (disk (c w0).1) !! q = files (disk w0) !! q) →
    export_frame rows w (c w0).1).
  { intros c w0 (Hs & Hd & Hdisk & added & Hadded & Hall)
      (Hs' & Hd' & Hdirs' & Hlog' & Hfiles').
    unfold export_frame. rewrite Hs', Hd', Hdirs', Hlog', Hs, Hd, Hdisk.
    repeat split; try done.
    - intros q Hq. rewrite Hfiles', Hdisk; [done|].
      apply (Hq file Hrow).
    - by exists added. }
  assert (Hbody : ∀ w0 : World F,
    let c := if is_LAB (file_type (text_file file))
             then export_lab p (construct_transcription_tiers file)
             else export_textgrid to_tg_interval file p
                    (construct_transcription_tiers file)
                    (duration (sound_file file)) in
    self (c w0).1 = self w0 ∧ database (c w0).1 = database w0
    ∧ dirs (disk (c w0).1) = dirs (disk w0)
    ∧ logged (c w0).1 = logged w0
    ∧ ∀ q, q ≠ p → files (disk (c w0).1) !! q = files (disk w0) !! q).
  { intros w0. destruct (is_LAB (file_type (text_file file))); simpl.
    - apply export_lab_frame.
    - unfold export_textgrid, bind, lift.
      destruct (add_speaker_tiers _ _ _ _ _) as [tg|e]; simpl.
      + repeat split. intros q Hq. by rewrite lookup_insert_ne.
      + done. }
  destruct (List.length (utterances file) =? 0)%nat eqn:Hcount.
  - unfold log_debug, log. simpl.
    apply (Hstep _ (add_log DEBUG
                      ("Could not find any utterances for " ++ file_name file)
                      w)).
    + apply Hlog. right. split; [done|].
      destruct (utterances file); [done|discriminate].
    + apply Hbody.
  - unfold ret. simpl. apply (Hstep _ w).
    + apply Hlog. by left.
    + apply Hbody.
Qed.

Lemma export_frame_refl (rows : list File) (w : World F) :
  export_frame rows w w.
Proof.
  repeat split. exists []. by rewrite app_nil_r.
Qed.

Lemma export_frame_trans (rows : list File) (w1 w2 w3 : World F) :
  export_frame rows w1 w2 → export_frame rows w2 w3 → export_frame rows w1 w3.
Proof.
  intros (Hs & Hd & Hdirs & Hfiles & a1 & Hl1 & Ha1)
         (Hs' & Hd' & Hdirs' & Hfiles' & a2 & Hl2 & Ha2).
  repeat split; try congruence.
  - intros q Hq. rewrite Hfiles'; [by apply Hfiles|]. by rewrite Hs.
  - exists (a1 ++ a2)%list. split.
    + by rewrite Hl2, Hl1, app_assoc.
    + by apply Forall_app.
Qed.

(** The loop over the corpus, from the world in which the chosen directory
    exists, keeps the frame of the exporter. *)
Lemma export_files_frame (output_directory : string) (w : World F) :
  export_frame (database w) (with_chosen_directory output_directory w)
    (export_files output_directory w).1.
Proof.
  rewrite export_files_unfold.
  apply (for_each_preserves (export_frame (database w))).
  - apply export_frame_refl.
  - apply export_frame_trans.
  - intros file v Hfile. by apply export_file_frame.
Qed.


(** X14.  Whether it returns or fails, [export_files] leaves the object and
    the database as they were, and the only files it creates or changes are
    at the output paths of the files of the corpus: every other path holds
    what it held before. *)
Theorem export_files_touches_only_output_paths
    (output_directory : string) (w : World F) :
  self (export_files output_directory w).1 = self w
  ∧ database (export_files output_directory w).1 = database w
  ∧ ∀ q, (∀ f, f ∈ database w → q ≠ output_path_of (self w) f) →
         files (disk (export_files output_directory w).1) !! q
         = files (disk w) !! q.
Proof.
  destruct (export_files_frame output_directory w)
    as (Hs & Hd & _ & Hfiles & _).
  split; [exact Hs|]. split; [exact Hd|].
  intros q Hq. by apply Hfiles.
Qed.

(** X15.  The only lines that [export_files] logs are the debug notices
    about files of the corpus that have no utterances; in particular the
    fallback to the [transcriptions] directory is not logged. *)
Theorem export_files_logs_only_notices
    (output_directory : string) (w : World F) :
  ∃ added,
    logged (export_files output_directory w).1 = (logged w ++ added)%list
    ∧ Forall (λ line, ∃ f, f ∈ database w ∧ utterances f = []
                           ∧ line = (DEBUG,
                                     "Could not find any utterances for "
                                     ++ file_name f)) added.
Proof.
  destruct (export_files_frame output_directory w)
    as (_ & _ & _ & _ & added & Hlog & Hall).
  by exists added.
Qed.

(** X16.  The export stops at the first file that fails: when the files
    before it are exported and its own export raises an error,
    [export_files] raises that error from the world the failure left, and
    the files that come after it in the corpus are not looked at. *)
Theorem export_files_stops_at_first_failure
    (output_directory : string) (w w1 w2 : World F)
    (pre post : list File) (file : File) (e : exn) :
  database w = (pre ++ file :: post)%list →
  for_each pre export_file (with_chosen_directory output_directory w)
  = (w1, Returned tt) →
  export_file file w1 = (w2, Raised e) →
  export_files output_directory w = (w2, Raised e).
Proof.
  intros Hdb Hpre Hfile.
  rewrite export_files_unfold, Hdb, for_each_app.
  fold (with_chosen_directory output_directory w).
  rewrite (bind_returned _ _ _ _ _ Hpre). cbn [for_each].
  by rewrite (bind_raised _ _ _ _ _ Hfile).
Qed.

Lemma add_speaker_tiers_stops (data : list (string * list CtmInterval))
    (duration : Z) (pre post : list SpeakerOrdering) (sp : SpeakerOrdering)
    (tg : Textgrid) :
  (∀ s, s ∈ pre → is_Some (dict_get data (name (speaker s)))) →
  dict_get data (name (speaker sp)) = None →
  add_speaker_tiers to_tg_interval data duration (pre ++ sp :: post) tg
  = Raised (KeyError (name (speaker sp))).
Proof.
  revert tg. induction pre as [|s pre IH]; intros tg Hpre Hsp; simpl.
  - by rewrite Hsp.
  - destruct (Hpre s) as [intervals ->]; [by left|].
    apply IH; [|done]. intros s' Hs'. apply Hpre. by right.
Qed.




(** X20.  The directory passed to [export_files] is used for nothing but
    the directory that is created: for any two requested directories the
    export has the same outcome, leaves the same object and database, and
    leaves the same files with the same contents. *)
Theorem export_files_requested_directory_unused
    (directory1 directory2 : string) (w : World F) :
  (export_files directory1 w).2 = (export_files directory2 w).2
  ∧ files (disk (export_files directory1 w).1)
    = files (disk (export_files directory2 w).1)
  ∧ self (export_files directory1 w).1 = self (export_files directory2 w).1
  ∧ database (export_files directory1 w).1
    = database (export_files directory2 w).1.
Proof.
  destruct (export_files_ignores_directory construct_output_path
              to_tg_interval directory1 directory2 w) as [Hr Hf].
  destruct (export_files_frame directory1 w) as (Hs1 & Hd1 & _).
  destruct (export_files_frame directory2 w) as (Hs2 & Hd2 & _).
  split; [exact Hr|]. split; [exact Hf|].
  split; [by rewrite Hs1, Hs2 | by rewrite Hd1, Hd2].
Qed.

End ExporterProperties.

(** * The further properties on concrete inputs *)

Section FurtherExamples.

Import Sample SampleConfig.

Ltac evaluate :=
  cbv zeta;
  repeat match goal with |- _ ∧ _ => split end;
  vm_compute; reflexivity.

(** X1 on a configuration file and a command line that both set [beam]. *)
Lemma parse_parameters_command_line_wins_witness :
  ∃ m,
    parse SampleConfig.load_configuration (Some "config.yaml") = Returned m
    ∧ m !! "beam" = Some (opaque "100").
Proof.
  destruct (parse SampleConfig.load_configuration (Some "config.yaml"))
    as [m|e] eqn:Hrun; [|by vm_compute in Hrun].
  exists m. split; [reflexivity|].
  apply (parse_parameters_command_line_wins
           SampleConfig.load_configuration nullable_fields parse_args
           update_from_opaque disk_with_config (Some "config.yaml") tt tt m
           Hrun).
  vm_compute. reflexivity.
Defined.

Example parse_parameters_sample :
  parse SampleConfig.load_configuration (Some "config.yaml")
  = Returned {[ "feature_type" := opaque "mfcc";
                "use_pitch" := opaque "true";
                "beam" := opaque "100";
                "ignore_case" := PyEmptyList ]}.
Proof. evaluate. Qed.

(** X3 on a configuration file that only has a [features] section. *)
Lemma parse_parameters_features_section_witness :
  ∃ m,
    parse load_features_only (Some "config.yaml") = Returned m
    ∧ m !! "type" = None
    ∧ m !! "feature_type" = Some (opaque "mfcc")
    ∧ m !! "use_pitch" = Some (opaque "true").
Proof.
  destruct (parse_parameters_features_section load_features_only
              nullable_fields parse_args update_from_opaque disk_with_config
              "config.yaml" tt tt
              {[ "type" := opaque "mfcc"; "use_pitch" := opaque "true" ]})
    as (m & Hrun & Htype & Hfeature & Hother).
  - discriminate.
  - vm_compute. reflexivity.
  - reflexivity.
  - exists m. split; [exact Hrun|]. split; [|split].
    + rewrite Htype. vm_compute. reflexivity.
    + rewrite Hfeature. vm_compute. reflexivity.
    + rewrite Hother by discriminate. vm_compute. reflexivity.
Defined.

(** X4 on a configuration file without a [features] section. *)
Lemma parse_parameters_settings_witness :
  ∃ m,
    parse load_settings_only (Some "config.yaml") = Returned m
    ∧ m !! "ignore_case" = Some PyEmptyList
    ∧ m !! "beam" = Some (opaque "100").
Proof.
  destruct (parse_parameters_settings load_settings_only
              nullable_fields parse_args update_from_opaque disk_with_config
              "config.yaml" tt tt)
    as (m & Hrun & Hlook & _).
  - discriminate.
  - vm_compute. reflexivity.
  - repeat constructor; discriminate.
  - exists m. split; [exact Hrun|]. split.
    + rewrite Hlook. vm_compute. reflexivity.
    + rewrite Hlook. vm_compute. reflexivity.
Defined.

(** X5 where the caller gives a feature type that the model also sets. *)
Lemma init_model_parameters_win_witness :
  SampleConfig.construct
    (<[ "feature_type" := "plp" ]> {[ "corpus_directory" := "/data" ]})
  = SampleConfig.construct {[ "corpus_directory" := "/data" ]}.
Proof.
  apply (init_model_parameters_win SampleConfig.load_extractor
           SampleConfig.super_init "/models/ivector.zip" 0 true _ _
           {| source_path := "/models/ivector.zip";
              parameters := {[ "feature_type" := "mfcc" ]} |}).
  - reflexivity.
  - intros k Hk. simpl in Hk.
    destruct (decide (k = "feature_type")) as [->|Hne].
    + by rewrite lookup_singleton_eq in Hk.
    + by rewrite lookup_insert_ne.
Defined.


(** When the extraction fails with a [KaldiProcessingError], its logs are
    reported before the error escapes. *)
Example setup_reports_kaldi_logs :
  let r := setup_with load_corpus export_model failing_extract_ivectors
             (world [] empty_disk) in
  r.2 = Raised (KaldiProcessingError ["ivector-extract.log"])
  ∧ logged r.1
    = [(INFO, "load_corpus"); (INFO, "export_model"); (ERROR, "kaldi")].
Proof. evaluate. Qed.

(** X9 where loading the corpus fails. *)
Lemma setup_stops_at_first_failure_witness :
  setup_with failing_load_corpus (λ _, failing_extract_ivectors)
    failing_extract_ivectors (world [] empty_disk)
  = setup_with failing_load_corpus export_model extract_ivectors
      (world [] empty_disk).
Proof.
  destruct (setup_stops_at_first_failure check_previous_run
              failing_load_corpus export_model extract_ivectors
              log_kaldi_errors update_log_file
              (world [] empty_disk) (world [] empty_disk) true)
    as (Hload & _).
  - reflexivity.
  - vm_compute. reflexivity.
  - eapply Hload. reflexivity.
Defined.


(** X16 on a corpus whose second file fails. *)
Lemma export_files_stops_at_first_failure_witness :
  let r := export "/data/out"
             (world [recording; empty_label_file; label_file] empty_disk) in
  r.2 = Raised (IndexError "list index out of range").
Proof.
  cbv zeta.
  pose (start := with_chosen_directory "/data/out"
           (world [recording; empty_label_file; label_file] empty_disk)).
  pose (w1 := (export_one recording start).1).
  pose (w2 := (export_one empty_label_file w1).1).
  unfold export.
  rewrite (export_files_stops_at_first_failure output_path_in triple
             "/data/out"
             (world [recording; empty_label_file; label_file] empty_disk)
             w1 w2 [recording] [label_file] empty_label_file
             (IndexError "list index out of range")).
  - reflexivity.
  - reflexivity.
  - vm_compute. reflexivity.
  - vm_compute. reflexivity.
Defined.

Example export_files_partial_sample :
  let r := export "/data/out"
             (world [recording; empty_label_file; label_file] empty_disk) in
  dom (files (disk r.1))
  = {[ "/tmp/mfa/corpus/rec1.TextGrid"; "/tmp/mfa/corpus/rec3.lab" ]}.
Proof. evaluate. Qed.




End FurtherExamples.
